(** * YOLOv8 oriented boxes to COCO annotations: a model of [main.py]

    The script loads a detector, runs it over the images of a directory and
    writes the detections as a COCO-style JSON document.  This file embeds
    the script's own logic (path validation, image selection, conversion of
    each oriented box, output bookkeeping) and proves properties of it.

    Conventions of the embedding:
    - Python [int] is [Z]; Python [float] is the kernel's binary64 [float];
    - Python [str] is [string], read as a sequence of code points below 256;
    - a Python [dict] is an association list in insertion order;
    - exceptions are the left summand of a sum type;
    - the outside world (file system, detector) is a record of oracles. *)

From Stdlib Require Import ZArith List String Ascii Bool Lia.
From Stdlib Require Import Sorting.Sorted Sorting.Permutation.
From Stdlib Require Import Floats.PrimFloat.
From Stdlib Require Import DecimalString.
Import ListNotations.

Set Warnings "-register-all".
Set Warnings "-inexact-float".

Local Open Scope string_scope.
Local Open Scope list_scope.
Local Open Scope Z_scope.

(* ================================================================== *)
(** ** Python strings and [posixpath] *)
(* ================================================================== *)

Module PyStr.

(** [str.lower] on one code point below 256: [A-Z] and the Latin-1 capitals
    (U+00C0 to U+00DE, the multiplication sign U+00D7 apart) move up by 32. *)
Definition lower_ascii (c : ascii) : ascii :=
  let n := nat_of_ascii c in
  if ((65 <=? n) && (n <=? 90))%nat then ascii_of_nat (n + 32)
  else if ((192 <=? n) && (n <=? 222) && negb (n =? 215))%nat
       then ascii_of_nat (n + 32)
  else c.

(** [s.lower()] *)
Fixpoint lower (s : string) : string :=
  match s with
  | EmptyString => EmptyString
  | String c s' => String (lower_ascii c) (lower s')
  end.

(** [s.startswith(p)] *)
Definition startswith (s p : string) : bool := String.prefix p s.

(** [s.endswith(suf)]: [s] is [suf], or the tail of [s] ends with [suf]. *)
Fixpoint endswith (s suf : string) : bool :=
  if String.eqb s suf then true
  else match s with
       | EmptyString => false
       | String _ s' => endswith s' suf
       end.

(** [s.endswith((a, b, ...))]: a tuple of suffixes. *)
Definition endswith_any (s : string) (sufs : list string) : bool :=
  existsb (endswith s) sufs.

(** [s.rfind(c)] for a one-character needle: the highest index holding
    [c], or [-1].  [i] is the index of the head of [s], [last] the best
    index seen so far. *)
Fixpoint rfind_from (c : ascii) (s : string) (i last : Z) : Z :=
  match s with
  | EmptyString => last
  | String d s' => rfind_from c s' (i + 1) (if Ascii.eqb d c then i else last)
  end.

Definition rfind (c : ascii) (s : string) : Z := rfind_from c s 0 (-1).

(** [s[n:]] for a natural [n]. *)
Fixpoint drop (n : nat) (s : string) : string :=
  match n, s with
  | O, _ => s
  | S _, EmptyString => EmptyString
  | S n', String _ s' => drop n' s'
  end.

(** [s[:n]] for a natural [n]. *)
Fixpoint take (n : nat) (s : string) : string :=
  match n, s with
  | O, _ => EmptyString
  | S _, EmptyString => EmptyString
  | S n', String c s' => String c (take n' s')
  end.

(** Characters of a string, for [existsb] and the like. *)
Fixpoint chars (s : string) : list ascii :=
  match s with
  | EmptyString => []
  | String c s' => c :: chars s'
  end.

(** The code-point order on [str], as [<=]. *)
Definition leb (a b : string) : bool := String.leb a b.

(** [str(n)] for a natural number. *)
Definition of_nat (n : nat) : string := NilEmpty.string_of_uint (Nat.to_uint n).

End PyStr.

Module PosixPath.

Definition sep : ascii := "/"%char.
Definition extsep : ascii := "."%char.

(** [os.path.curdir] *)
Definition curdir : string := ".".

(** One step of [posixpath.join]: an absolute component replaces what was
    joined so far; otherwise it is appended, with a separator unless the
    path is empty or already ends with one. *)
Definition join1 (path b : string) : string :=
  if PyStr.startswith b "/" then b
  else if (String.eqb path "" || PyStr.endswith path "/")%bool
       then (path ++ b)%string
  else (path ++ "/" ++ b)%string.

(** [os.path.join(a, *p)] *)
Definition join (a : string) (p : list string) : string :=
  fold_left join1 p a.

(** [os.path.basename(p)]: [i = p.rfind('/') + 1; return p[i:]] *)
Definition basename (p : string) : string :=
  let i := PyStr.rfind sep p + 1 in
  PyStr.drop (Z.to_nat i) p.

(** [os.path.splitext(p)]: the extension starts at the last dot, provided
    that dot comes after the last separator and some character other than
    a dot stands between the two. *)
Definition splitext (p : string) : string * string :=
  let sepIndex := PyStr.rfind sep p in
  let dotIndex := PyStr.rfind extsep p in
  if (sepIndex <? dotIndex)
     && existsb (fun c => negb (Ascii.eqb c extsep))
          (PyStr.chars
             (PyStr.take (Z.to_nat (dotIndex - (sepIndex + 1)))
                (PyStr.drop (Z.to_nat (sepIndex + 1)) p)))
  then (PyStr.take (Z.to_nat dotIndex) p, PyStr.drop (Z.to_nat dotIndex) p)
  else (p, "").

End PosixPath.

(* ================================================================== *)
(** ** Python values that reach the JSON document *)
(* ================================================================== *)

(** The values [json.dump] receives.  A [dict] keeps its insertion order. *)
Inductive json : Type :=
| JNone
| JBool (b : bool)
| JInt (z : Z)
| JFloat (f : float)
| JStr (s : string)
| JList (l : list json)
| JDict (d : list (string * json)).

Module PyDict.

Definition t : Type := list (string * json).

(** [d[k]], as an option. *)
Fixpoint get (k : string) (d : t) : option json :=
  match d with
  | [] => None
  | (k', v) :: d' => if String.eqb k k' then Some v else get k d'
  end.

(** [d[k] = v]: an existing key keeps its place, a new one goes last. *)
Fixpoint set (k : string) (v : json) (d : t) : t :=
  match d with
  | [] => [(k, v)]
  | (k', v') :: d' =>
      if String.eqb k k' then (k, v) :: d' else (k', v') :: set k v d'
  end.

(** [d.update(other)] *)
Definition update (d other : t) : t :=
  fold_left (fun acc kv => set (fst kv) (snd kv) acc) other d.

(** [list(d.keys())] *)
Definition keys (d : t) : list string := map fst d.

End PyDict.

(** Field access on a value that should be a dict. *)
Definition field (k : string) (v : json) : option json :=
  match v with
  | JDict d => PyDict.get k d
  | _ => None
  end.

(** Exceptions the script raises itself or lets through. *)
Inductive exn : Type :=
| FileNotFoundError (msg : string)
| ValueError (msg : string)
| IndexError
| ExternalError (what : string).

(* ================================================================== *)
(** ** Numbers *)
(* ================================================================== *)

(** CPython's [Py_MATH_PI] and [radToDeg = 180.0 / Py_MATH_PI]. *)
Definition Py_MATH_PI : float := 0x1.921fb54442d18p+1%float.
Definition radToDeg : float := PrimFloat.div 180%float Py_MATH_PI.

(** [math.degrees(x)], which CPython computes as [x * radToDeg]. *)
Definition math_degrees (x : float) : float := PrimFloat.mul x radToDeg.

(** Indexing a one-dimensional tensor (or a list) the Python way: indices
    from [-n] to [n - 1] are valid and negative ones count from the end. *)
Definition py_index {A : Type} (l : list A) (i : Z) : exn + A :=
  let n := Z.of_nat (List.length l) in
  let j := if i <? 0 then i + n else i in
  if (0 <=? j) && (j <? n) then
    match nth_error l (Z.to_nat j) with
    | Some a => inr a
    | None => inl IndexError
    end
  else inl IndexError.

(* ================================================================== *)
(** ** [calculate_bbox] *)
(* ================================================================== *)

(** The class tensor [obb.cls] is a list of class values; an entry is the
    integer that [int(t.item())] yields for it.  A row of [obb.xywhr] is
    the list that [tolist()] yields. *)
Definition calculate_bbox (bbox_id img_id : Z) (r_labels : list Z)
    (r_xywhr : list float) : exn + json :=
  match py_index r_labels (bbox_id - 1) with
  | inl e => inl e
  | inr c =>
      let category_id := c + 1 in
      match r_xywhr with
      | [x; y; width; height; rotation] =>
          let rotation := math_degrees rotation in
          let area := PrimFloat.mul width height in
          inr (JDict
                 [("id", JInt bbox_id);
                  ("image_id", JInt img_id);
                  ("category_id", JInt category_id);
                  ("segmentation", JList []);
                  ("area", JFloat area);
                  ("bbox",
                   JList [JFloat (PrimFloat.sub x (PrimFloat.div width 2%float));
                          JFloat (PrimFloat.sub y (PrimFloat.div height 2%float));
                          JFloat width;
                          JFloat height]);
                  ("iscrowd", JInt 0);
                  ("attributes",
                   JDict [("occluded", JBool false);
                          ("rotation", JFloat rotation)])])
      | _ => inl (ValueError "wrong number of values to unpack")
      end
  end.

(* ================================================================== *)
(** ** Configuration, prediction results, the outside world *)
(* ================================================================== *)

(** What [yaml.safe_load] gives for the [labels] key: a list of scalars,
    or something else, kept as the text [print] shows for it. *)
Inductive labels_value : Type :=
| LabelsList (l : list json)
| LabelsOther (repr : string).

(** [CONSTANTS], the parsed [constants.yaml].  The two flags are the truth
    values of [yolo_results.save_image] and [yolo_results.save_annotation]. *)
Module Constants.
Record t : Type := mk {
  model_path : string;
  images_path : string;
  save_annotations_path : option string;
  labels : labels_value;
  save_image : bool;
  save_annotation : bool
}.
End Constants.

(** One element of the stream that [model.predict] yields. *)
Module Result.
Record obb_t : Type := mk_obb {
  cls : list Z;
  xywhr : list (list float)
}.
Record t : Type := mk {
  path : string;
  orig_shape : Z * Z;
  obb : obb_t
}.
End Result.

(** Effects on the outside world, in the order the script performs them. *)
Inductive event : Type :=
| Print (s : string)
| LogDebug (s : string)
| MakeDirs (p : string)
| LoadModel (p : string)
| Predict (sources : list string)
| SaveImage (r : Result.t) (filename : string)
| SaveTxt (r : Result.t) (txt_file : string)
| OpenWrite (p : string)
| JsonDump (p : string) (doc : json).

Definition trace : Type := list event.

(** The outside world, as the script observes it: each query is answered
    as it is at the one place the script asks it.  [predict_stream] gives
    the results that the stream of [YOLO(model_path).predict(sources,
    stream=True)] yields and the exception that ends it, if any.
    [io_error] says whether an effect fails instead of taking place; it may
    depend on the effects performed so far. *)
Record World : Type := mkWorld {
  os_path_exists : string -> bool;
  os_path_isfile : string -> bool;
  os_listdir : string -> exn + list string;
  predict_stream : string -> list string -> list Result.t * option exn;
  io_error : trace -> event -> option exn
}.

(* ================================================================== *)
(** ** A trace-and-exception monad *)
(* ================================================================== *)

Definition M (A : Type) : Type := trace -> trace * (exn + A).

Definition ret {A : Type} (a : A) : M A := fun tr => (tr, inr a).

Definition bind {A B : Type} (c : M A) (k : A -> M B) : M B :=
  fun tr =>
    match c tr with
    | (tr', inl e) => (tr', inl e)
    | (tr', inr a) => k a tr'
    end.

Definition raise {A : Type} (e : exn) : M A := fun tr => (tr, inl e).

(** From a pure fallible computation. *)
Definition lift {A : Type} (r : exn + A) : M A := fun tr => (tr, r).

(** An effect that cannot fail: writing to the console or the log. *)
Definition emit (e : event) : M unit := fun tr => (tr ++ [e], inr tt).

Declare Scope monad_scope.
Delimit Scope monad_scope with monad.
Notation "x <- c ;; k" := (bind c (fun x => k))
  (at level 61, c at next level, right associativity) : monad_scope.
Notation "c ;; k" := (bind c (fun _ => k))
  (at level 61, right associativity) : monad_scope.
Local Open Scope monad_scope.

Definition when (b : bool) (c : M unit) : M unit :=
  if b then c else ret tt.

(* ================================================================== *)
(** ** [main] *)
(* ================================================================== *)

(** [sorted(l)] on strings: insertion into an ordered list. *)
Fixpoint insert_sorted (x : string) (l : list string) : list string :=
  match l with
  | [] => [x]
  | y :: l' => if PyStr.leb x y then x :: l else y :: insert_sorted x l'
  end.

Definition sorted (l : list string) : list string :=
  fold_right insert_sorted [] l.

(** The suffixes that make a directory entry an image. *)
Definition image_suffixes : list string := [".jpg"; ".jpeg"; ".png"].

(** [[{"id": i, "name": label, "supercategory": ""}
      for i, label in enumerate(labels, start=1)]] *)
Fixpoint categories_from (i : Z) (labels : list json) : list json :=
  match labels with
  | [] => []
  | label :: rest =>
      JDict [("id", JInt i); ("name", label); ("supercategory", JStr "")]
      :: categories_from (i + 1) rest
  end.

(** The COCO header the script puts in first. *)
Definition coco_header : PyDict.t :=
  [("licenses", JList [JDict [("name", JStr ""); ("id", JInt 0); ("url", JStr "")]]);
   ("info", JDict [("contributor", JStr ""); ("date_created", JStr "");
                   ("description", JStr ""); ("url", JStr "");
                   ("version", JStr ""); ("year", JStr "")])].

(** [new_image], the record of the [i]-th result. *)
Definition new_image (i : Z) (result : Result.t) : json :=
  JDict [("id", JInt i);
         ("width", JInt (snd (Result.orig_shape result)));
         ("height", JInt (fst (Result.orig_shape result)));
         ("file_name", JStr (PosixPath.basename (Result.path result)));
         ("license", JInt 0);
         ("flickr_url", JStr "");
         ("coco_url", JStr "");
         ("date_captured", JInt 0)].

(** The inner loop: [id] starts at 1 for each result and grows by one for
    each row of [result.obb.xywhr]; every annotation is appended to the one
    list shared by all results. *)
Fixpoint boxes_loop (id i : Z) (r_cls : list Z) (rows : list (list float))
    (annotations : list json) : exn + list json :=
  match rows with
  | [] => inr annotations
  | r_xywhr :: rows' =>
      match calculate_bbox id i r_cls r_xywhr with
      | inl e => inl e
      | inr new_annotation =>
          boxes_loop (id + 1) i r_cls rows' (annotations ++ [new_annotation])
      end
  end.

Section Main.

Variable w : World.

(** An effect that may fail: the world decides. *)
Definition perform (e : event) : M unit :=
  fun tr =>
    match io_error w tr e with
    | Some x => (tr, inl x)
    | None => (tr ++ [e], inr tt)
    end.

Definition path_exists (p : string) : M bool :=
  ret (os_path_exists w p).

Definition path_isfile (p : string) : M bool :=
  ret (os_path_isfile w p).

Definition listdir (p : string) : M (list string) :=
  lift (os_listdir w p).

(** The loop that collects [images_paths] from the directory entries. *)
Fixpoint load_images (images_path : string) (entries : list string)
    (images_paths : list string) : M (list string) :=
  match entries with
  | [] => ret images_paths
  | image :: rest =>
      let image_path := PosixPath.join images_path [image] in
      isf <- path_isfile image_path ;;
      if isf && PyStr.endswith_any (PyStr.lower image) image_suffixes
      then load_images images_path rest (images_paths ++ [image_path])
      else load_images images_path rest images_paths
  end.

(** The loop over [enumerate(results, start=1)]. *)
Fixpoint results_loop (save_image save_txt : bool)
    (save_image_path save_txt_file_path : string)
    (i : Z) (results : list Result.t)
    (data_images data_annotations : list json) : M (list json * list json) :=
  match results with
  | [] => ret (data_images, data_annotations)
  | result :: rest =>
      when save_image
        (let path_to_save :=
           PosixPath.join save_image_path
             [PosixPath.basename (Result.path result)] in
         perform (SaveImage result path_to_save)) ;;
      when save_txt
        (let path_to_save :=
           PosixPath.join save_txt_file_path
             [(fst (PosixPath.splitext (PosixPath.basename (Result.path result)))
               ++ ".txt")%string] in
         perform (SaveTxt result path_to_save)) ;;
      let data_images := data_images ++ [new_image i result] in
      data_annotations <-
        lift (boxes_loop 1 i (Result.cls (Result.obb result))
                (Result.xywhr (Result.obb result)) data_annotations) ;;
      results_loop save_image save_txt save_image_path save_txt_file_path
        (i + 1) rest data_images data_annotations
  end.

Definition main (CONSTANTS : Constants.t) : M unit :=
  let model_path := Constants.model_path CONSTANTS in
  let images_path := Constants.images_path CONSTANTS in
  let save_annotations_file_path := Constants.save_annotations_path CONSTANTS in
  let labels := Constants.labels CONSTANTS in
  let save_image := Constants.save_image CONSTANTS in
  let save_txt := Constants.save_annotation CONSTANTS in
  ex <- path_exists model_path ;;
  if negb ex then
    emit (Print ("Model path not found: " ++ model_path)%string) ;;
    raise (FileNotFoundError
             ("Model path not found: " ++ model_path ++ " was not found")%string)
  else
  ex <- path_exists images_path ;;
  if negb ex then
    emit (Print ("Images path not found: " ++ images_path)%string) ;;
    raise (FileNotFoundError
             ("Images path not found: " ++ images_path ++ " was not found")%string)
  else
  missing <- match save_annotations_file_path with
             | None => ret false
             | Some p => ex <- path_exists p ;; ret (negb ex)
             end ;;
  if missing : bool then
    let p := match save_annotations_file_path with Some p => p | None => "None" end in
    emit (Print ("Save annotations path not found: " ++ p)%string) ;;
    raise (FileNotFoundError
             ("Save annotations path not found: " ++ p ++ " was not found")%string)
  else
  let save_annotations_file_path := PosixPath.curdir in
  let save_image_path :=
    PosixPath.join save_annotations_file_path ["predictions"; "images"] in
  let save_txt_file_path :=
    PosixPath.join save_annotations_file_path ["predictions"; "annotations"] in
  let json_file_path :=
    PosixPath.join save_annotations_file_path ["instances.json"] in
  match labels with
  | LabelsOther repr =>
      emit (Print ("Incorrect labels format: " ++ repr)%string) ;;
      raise (ValueError
               ("Incorrect labels format: " ++ repr ++ " should be a list")%string)
  | LabelsList labels =>
      when save_image
        (ex <- path_exists save_image_path ;;
         when (negb ex) (perform (MakeDirs save_image_path))) ;;
      when save_txt
        (ex <- path_exists save_txt_file_path ;;
         when (negb ex) (perform (MakeDirs save_txt_file_path))) ;;
      emit (LogDebug ("Loading model from " ++ model_path)%string) ;;
      perform (LoadModel model_path) ;;
      emit (LogDebug ("Loading images from " ++ images_path)%string) ;;
      entries <- listdir images_path ;;
      images_paths <- load_images images_path entries [] ;;
      let images_paths := sorted images_paths in
      emit (LogDebug ("Found " ++ PyStr.of_nat (List.length images_paths)
                        ++ " images")%string) ;;
      emit (LogDebug "Predicting on images") ;;
      perform (Predict images_paths) ;;
      let stream := predict_stream w model_path images_paths in
      let data := PyDict.update [] coco_header in
      let data :=
        PyDict.update data [("categories", JList (categories_from 1 labels))] in
      lists <- results_loop save_image save_txt save_image_path save_txt_file_path
                 1 (fst stream) [] [] ;;
      match snd stream with
      | Some e => raise e
      | None =>
          emit (LogDebug "Saving results") ;;
          let data := PyDict.update data [("images", JList (fst lists))] in
          let data := PyDict.update data [("annotations", JList (snd lists))] in
          perform (OpenWrite json_file_path) ;;
          perform (JsonDump json_file_path (JDict data)) ;;
          emit (LogDebug "Done")
      end
  end.

End Main.

(* ================================================================== *)
(** ** Vocabulary for the statements *)
(* ================================================================== *)

(** [start, start + 1, ...], [n] numbers: what [enumerate] counts. *)
Fixpoint zseq (start : Z) (n : nat) : list Z :=
  match n with
  | O => []
  | S n' => start :: zseq (start + 1) n'
  end.

(** [list(enumerate(l, start))] *)
Fixpoint enumerate {A : Type} (start : Z) (l : list A) : list (Z * A) :=
  match l with
  | [] => []
  | a :: l' => (start, a) :: enumerate (start + 1) l'
  end.

(** An integer field of a record. *)
Definition int_field (k : string) (v : json) : option Z :=
  match field k v with
  | Some (JInt z) => Some z
  | _ => None
  end.

(** A list-valued entry of the document. *)
Definition items (k : string) (doc : json) : list json :=
  match field k doc with
  | Some (JList l) => l
  | _ => []
  end.

(** The ids of a list of records, in order. *)
Definition ids (l : list json) : list (option Z) := map (int_field "id") l.

(** The (image id, id) pairs of a list of annotations. *)
Definition id_pairs (l : list json) : list (option Z * option Z) :=
  map (fun a => (int_field "image_id" a, int_field "id" a)) l.

(** The (image id, id) pairs that enumeration gives: for the result that
    is numbered [i], the pairs [(i, 1)], [(i, 2)], ... one per row. *)
Definition enumerated_pairs (i : Z) (results : list Result.t)
    : list (option Z * option Z) :=
  flat_map (fun ir =>
              map (fun k => (Some (fst ir), Some k))
                (zseq 1 (List.length (Result.xywhr (Result.obb (snd ir))))))
    (enumerate i results).

(** The number of oriented boxes in a list of results. *)
Definition box_count (results : list Result.t) : nat :=
  list_sum (map (fun r => List.length (Result.xywhr (Result.obb r))) results).

(** The file an event writes, if it writes one. *)
Definition written_file (e : event) : option string :=
  match e with
  | SaveImage _ f => Some f
  | SaveTxt _ f => Some f
  | OpenWrite p => Some p
  | JsonDump p _ => Some p
  | _ => None
  end.

(** Events that create something on disk. *)
Definition is_output (e : event) : bool :=
  match e with
  | MakeDirs _ | SaveImage _ _ | SaveTxt _ _ | OpenWrite _ | JsonDump _ _ => true
  | _ => false
  end.

(** Calls into the detection library. *)
Definition is_detector_call (e : event) : bool :=
  match e with
  | LoadModel _ | Predict _ => true
  | _ => false
  end.

(** The three paths the script derives from the current directory. *)
Definition save_image_path : string :=
  PosixPath.join PosixPath.curdir ["predictions"; "images"].
Definition save_txt_file_path : string :=
  PosixPath.join PosixPath.curdir ["predictions"; "annotations"].
Definition json_file_path : string :=
  PosixPath.join PosixPath.curdir ["instances.json"].

(** Whether a directory entry passes the test of the image loop. *)
Definition is_image (w : World) (images_path image : string) : bool :=
  os_path_isfile w (PosixPath.join images_path [image])
  && PyStr.endswith_any (PyStr.lower image) image_suffixes.

(** The paths the image loop keeps, in directory order. *)
Definition selected (w : World) (images_path : string)
    (entries : list string) : list string :=
  map (fun image => PosixPath.join images_path [image])
    (filter (is_image w images_path) entries).

(** The sources handed to [predict] in a run that gets that far. *)
Definition images_paths_of (w : World) (c : Constants.t) : list string :=
  match os_listdir w (Constants.images_path c) with
  | inr entries => sorted (selected w (Constants.images_path c) entries)
  | inl _ => []
  end.

(** The results the stream yields for them. *)
Definition results_of (w : World) (c : Constants.t) : list Result.t :=
  fst (predict_stream w (Constants.model_path c) (images_paths_of w c)).

(** The image records of a list of results, numbered from [i]. *)
Fixpoint image_records (i : Z) (results : list Result.t) : list json :=
  match results with
  | [] => []
  | r :: rest => new_image i r :: image_records (i + 1) rest
  end.

(** The annotations of a list of results, numbered from [i]: the pure
    content of the loop over results. *)
Fixpoint annotations_from (i : Z) (results : list Result.t)
    (annotations : list json) : exn + list json :=
  match results with
  | [] => inr annotations
  | r :: rest =>
      match boxes_loop 1 i (Result.cls (Result.obb r))
              (Result.xywhr (Result.obb r)) annotations with
      | inl e => inl e
      | inr annotations' => annotations_from (i + 1) rest annotations'
      end
  end.

(** The annotations one result contributes, when none of them fails. *)
Definition boxes_of (i : Z) (r : Result.t) : exn + list json :=
  boxes_loop 1 i (Result.cls (Result.obb r)) (Result.xywhr (Result.obb r)) [].

(** Where the script saves the annotated image and the label file of a
    result. *)
Definition image_file (r : Result.t) : string :=
  PosixPath.join save_image_path [PosixPath.basename (Result.path r)].
Definition label_file (r : Result.t) : string :=
  PosixPath.join save_txt_file_path
    [(fst (PosixPath.splitext (PosixPath.basename (Result.path r))) ++ ".txt")%string].

(** The save events of the loop over results. *)
Definition save_events (c : Constants.t) (results : list Result.t) : trace :=
  flat_map (fun r =>
              (if Constants.save_image c then [SaveImage r (image_file r)] else [])
              ++ (if Constants.save_annotation c then [SaveTxt r (label_file r)] else []))
    results.

(** The events between validation and the loop over results. *)
Definition setup_events (w : World) (c : Constants.t) : trace :=
  (if Constants.save_image c && negb (os_path_exists w save_image_path)
   then [MakeDirs save_image_path] else [])
  ++ (if Constants.save_annotation c && negb (os_path_exists w save_txt_file_path)
      then [MakeDirs save_txt_file_path] else [])
  ++ [LogDebug ("Loading model from " ++ Constants.model_path c)%string;
      LoadModel (Constants.model_path c);
      LogDebug ("Loading images from " ++ Constants.images_path c)%string;
      LogDebug ("Found " ++ PyStr.of_nat (List.length (images_paths_of w c))
                  ++ " images")%string;
      LogDebug "Predicting on images";
      Predict (images_paths_of w c)].

(** The document, from its three lists. *)
Definition document (labels images annotations : list json) : json :=
  JDict (coco_header
         ++ [("categories", JList (categories_from 1 labels));
             ("images", JList images);
             ("annotations", JList annotations)]).

(** The events of a run that completes. *)
Definition complete_trace (w : World) (c : Constants.t)
    (labels annotations : list json) : trace :=
  setup_events w c
  ++ save_events c (results_of w c)
  ++ [LogDebug "Saving results";
      OpenWrite json_file_path;
      JsonDump json_file_path
        (document labels (image_records 1 (results_of w c)) annotations);
      LogDebug "Done"].

(** What a run may do at all, given the world and the configuration. *)
Definition permitted (w : World) (c : Constants.t) (e : event) : Prop :=
  match e with
  | Print _ | LogDebug _ => True
  | LoadModel p => p = Constants.model_path c
  | Predict sources =>
      sources = images_paths_of w c
      /\ exists entries, os_listdir w (Constants.images_path c) = inr entries
  | MakeDirs p =>
      (p = save_image_path /\ Constants.save_image c = true)
      \/ (p = save_txt_file_path /\ Constants.save_annotation c = true)
  | SaveImage r f => f = image_file r /\ Constants.save_image c = true
  | SaveTxt r f => f = label_file r /\ Constants.save_annotation c = true
  | OpenWrite p => p = json_file_path
  | JsonDump p _ => p = json_file_path
  end.

(** A world in which no effect fails. *)
Definition reliable (w : World) : Prop := forall tr e, io_error w tr e = None.

(** The documents a trace dumps, each with the path it goes to. *)
Fixpoint dumps (tr : trace) : list (string * json) :=
  match tr with
  | [] => []
  | JsonDump p doc :: rest => (p, doc) :: dumps rest
  | _ :: rest => dumps rest
  end.

(** An entry of the [attributes] record of an annotation. *)
Definition attribute (k : string) (data : json) : option json :=
  match field "attributes" data with
  | Some a => field k a
  | None => None
  end.

(** [c] only appends events that satisfy [P], whatever its outcome. *)
Definition appends_only {A : Type} (P : event -> Prop) (c : M A) : Prop :=
  forall tr tr' r, c tr = (tr', r) -> exists ext, tr' = tr ++ ext /\ Forall P ext.

(** Ending with a suffix whatever the case of the letters. *)
Definition ends_with_ci (name ext : string) : Prop :=
  exists pre suf, name = (pre ++ suf)%string /\ PyStr.lower suf = ext.

(** The order of [sorted] on paths, as a relation. *)
Definition path_le (a b : string) : Prop := PyStr.leb a b = true.

(* ================================================================== *)
(** ** A small run, for concrete checks *)
(* ================================================================== *)

Module Sample.

(** Two images; the first has two boxes, the second one. *)
Definition result_a : Result.t :=
  Result.mk "imgs/a.jpg" (480, 640)
    (Result.mk_obb [0; 1]
       [[10; 20; 4; 6; 0]%float; [1; 2; 3; 4; Py_MATH_PI]%float]).

Definition result_b : Result.t :=
  Result.mk "imgs/b.PNG" (100, 200)
    (Result.mk_obb [1] [[10; 20; 4; 6; 0.5]%float]).

(** A directory with two images, a subdirectory and two other files; the
    output directory [out] exists, nothing fails. *)
Definition world : World :=
  mkWorld
    (fun p => negb (String.eqb p "missing.pt"))
    (fun p => negb (String.eqb p "imgs/sub.jpg"))
    (fun _ => inr ["b.PNG"; "sub.jpg"; "notes.txt"; "a.jpg"; "c.jpeg.bak"])
    (fun _ _ => ([result_a; result_b], None))
    (fun _ _ => None).

Definition constants : Constants.t :=
  Constants.mk "m.pt" "imgs" (Some "out")
    (LabelsList [JStr "car"; JStr "boat"]) true true.

(** The same with both flags off. *)
Definition quiet : Constants.t :=
  Constants.mk "m.pt" "imgs" (Some "out")
    (LabelsList [JStr "car"; JStr "boat"]) false false.

(** A configuration whose model file is not there. *)
Definition no_model : Constants.t :=
  Constants.mk "missing.pt" "imgs" None
    (LabelsList [JStr "car"; JStr "boat"]) true true.

Definition run : trace := Eval vm_compute in fst (main world constants []).
Definition quiet_run : trace := Eval vm_compute in fst (main world quiet []).

Definition doc : json :=
  Eval vm_compute in
    match dumps run with
    | (_, d) :: _ => d
    | [] => JNone
    end.

End Sample.

(* ================================================================== *)
(** ** Vocabulary for the further properties *)
(* ================================================================== *)

(** Events other than opening and dumping the JSON file. *)
Definition quiet (e : event) : Prop :=
  match e with
  | OpenWrite _ | JsonDump _ _ => False
  | _ => True
  end.

(** A result that the conversion accepts: at least as many class values
    as boxes, and five values in each row. *)
Definition well_formed (r : Result.t) : Prop :=
  (List.length (Result.xywhr (Result.obb r))
   <= List.length (Result.cls (Result.obb r)))%nat
  /\ Forall (fun row => List.length row = 5%nat) (Result.xywhr (Result.obb r)).

(** A name without a path separator, as [os.listdir] gives them. *)
Definition no_sep (s : string) : Prop := ~ In PosixPath.sep (PyStr.chars s).

(** A name without a dot. *)
Definition no_dot (s : string) : Prop := ~ In PosixPath.extsep (PyStr.chars s).


(** The [image_id] of each annotation, in order. *)
Definition image_ids (l : list json) : list (option Z) :=
  map (int_field "image_id") l.

(** More small runs, for concrete checks of the further properties. *)
Module Cases.

(** Only the model file and the images directory exist. *)
Definition fresh_world : World :=
  mkWorld
    (fun p => String.eqb p "m.pt" || String.eqb p "imgs")
    (fun _ => true)
    (fun _ => inr ["b.PNG"; "a.jpg"])
    (fun _ _ => ([Sample.result_a; Sample.result_b], None))
    (fun _ _ => None).

(** The stream yields one result and then breaks. *)
Definition broken_world : World :=
  mkWorld
    (fun _ => true)
    (fun _ => true)
    (fun _ => inr ["b.PNG"; "a.jpg"])
    (fun _ _ => ([Sample.result_a], Some (ExternalError "out of memory")))
    (fun _ _ => None).

(** The same directory, listed in another order. *)
Definition listed_backwards : list string :=
  ["c.jpeg.bak"; "a.jpg"; "notes.txt"; "sub.jpg"; "b.PNG"].

Definition bad_labels : Constants.t :=
  Constants.mk "m.pt" "imgs" None (LabelsOther "car") true true.

Definition no_save_dir : Constants.t :=
  Constants.mk "m.pt" "imgs" (Some "nowhere")
    (LabelsList [JStr "car"; JStr "boat"]) true true.

(** Both flags set and no output directory configured. *)
Definition plain : Constants.t :=
  Constants.mk "m.pt" "imgs" None
    (LabelsList [JStr "car"; JStr "boat"]) true true.

Definition fresh_run : trace :=
  Eval vm_compute in fst (main fresh_world plain []).

Definition broken_run : trace :=
  Eval vm_compute in fst (main broken_world Sample.constants []).

(** A result with two boxes and one class value. *)
Definition short_cls : Result.t :=
  Result.mk "imgs/a.jpg" (480, 640)
    (Result.mk_obb [0] [[10; 20; 4; 6; 0]%float; [1; 2; 3; 4; 0]%float]).

(** The stream yields a good result, the short one, and another good one. *)
Definition short_world : World :=
  mkWorld
    (fun _ => true)
    (fun _ => true)
    (fun _ => inr ["b.PNG"; "a.jpg"])
    (fun _ _ => ([Sample.result_b; short_cls; Sample.result_a], None))
    (fun _ _ => None).

Definition short_run : trace :=
  Eval vm_compute in fst (main short_world Sample.constants []).

(** A directory without images: the stream yields nothing. *)
Definition empty_world : World :=
  mkWorld
    (fun _ => true)
    (fun _ => true)
    (fun _ => inr ["notes.txt"])
    (fun _ _ => ([], None))
    (fun _ _ => None).

Definition empty_run : trace :=
  Eval vm_compute in fst (main empty_world Sample.constants []).

End Cases.

(* ================================================================== *)
(** ** The monad: inversion and trace lemmas *)
(* ================================================================== *)

Section MonadFacts.

Context {A B : Type}.

Lemma bind_ok (c : M A) (k : A -> M B) tr tr' b :
  bind c k tr = (tr', inr b) ->
  exists a tr1, c tr = (tr1, inr a) /\ k a tr1 = (tr', inr b).
Proof.
  unfold bind. destruct (c tr) as [tr1 [e | a]]; intros H.
  - discriminate.
  - exists a, tr1. split; [reflexivity | exact H].
Qed.

Lemma ret_ok (a a' : A) tr tr' :
  ret a tr = (tr', inr a') -> tr' = tr /\ a' = a.
Proof. unfold ret. intros H. inversion H. split; reflexivity. Qed.

Lemma lift_ok (r : exn + A) tr tr' a :
  lift r tr = (tr', inr a) -> tr' = tr /\ r = inr a.
Proof. unfold lift. intros H. inversion H. split; reflexivity. Qed.

Lemma raise_ok (e : exn) tr tr' (a : A) :
  @raise A e tr = (tr', inr a) -> False.
Proof. unfold raise. intros H. discriminate. Qed.

Lemma appends_only_ret P (a : A) : appends_only P (ret a).
Proof.
  intros tr tr' r H. inversion H. exists []. rewrite app_nil_r. auto.
Qed.

Lemma appends_only_raise P (e : exn) : appends_only P (@raise A e).
Proof.
  intros tr tr' r H. inversion H. exists []. rewrite app_nil_r. auto.
Qed.

Lemma appends_only_lift P (x : exn + A) : appends_only P (lift x).
Proof.
  intros tr tr' r H. inversion H. exists []. rewrite app_nil_r. auto.
Qed.

Lemma appends_only_bind P (c : M A) (k : A -> M B) :
  appends_only P c -> (forall a, appends_only P (k a)) ->
  appends_only P (bind c k).
Proof.
  intros Hc Hk tr tr' r. unfold bind.
  destruct (c tr) as [tr1 [e | a]] eqn:E; intros H.
  - inversion H; subst. exact (Hc _ _ _ E).
  - destruct (Hc _ _ _ E) as [ext1 [-> F1]].
    destruct (Hk a _ _ _ H) as [ext2 [-> F2]].
    exists (ext1 ++ ext2). rewrite app_assoc. split; [reflexivity |].
    apply Forall_app. split; assumption.
Qed.

(** The continuation only matters at values that [c] can return. *)
Lemma appends_only_bind_ok P (c : M A) (k : A -> M B) :
  appends_only P c ->
  (forall a, (exists tr tr', c tr = (tr', inr a)) -> appends_only P (k a)) ->
  appends_only P (bind c k).
Proof.
  intros Hc Hk tr tr' r. unfold bind.
  destruct (c tr) as [tr1 [e | a]] eqn:E; intros H.
  - inversion H; subst. exact (Hc _ _ _ E).
  - destruct (Hc _ _ _ E) as [ext1 [-> F1]].
    assert (Ha : exists t t', c t = (t', inr a)) by (exists tr; eauto).
    destruct (Hk a Ha _ _ _ H) as [ext2 [-> F2]].
    exists (ext1 ++ ext2). rewrite app_assoc. split; [reflexivity |].
    apply Forall_app. split; assumption.
Qed.

End MonadFacts.

Lemma emit_ok e tr tr' u : emit e tr = (tr', inr u) -> tr' = tr ++ [e].
Proof. unfold emit. intros H. inversion H. reflexivity. Qed.

Lemma perform_ok w e tr tr' u :
  perform w e tr = (tr', inr u) -> tr' = tr ++ [e].
Proof.
  unfold perform. destruct (io_error w tr e); intros H; inversion H.
  reflexivity.
Qed.

Lemma when_ok b (c : M unit) tr tr' u :
  when b c tr = (tr', inr u) ->
  (b = true /\ c tr = (tr', inr u)) \/ (b = false /\ tr' = tr).
Proof.
  destruct b; simpl; intros H.
  - left. split; [reflexivity | exact H].
  - right. inversion H. split; reflexivity.
Qed.

Lemma appends_only_emit (P : event -> Prop) e : P e -> appends_only P (emit e).
Proof.
  intros He tr tr' r H. inversion H. exists [e]. split; [reflexivity |].
  constructor; [exact He | constructor].
Qed.

Lemma appends_only_perform (P : event -> Prop) w e :
  P e -> appends_only P (perform w e).
Proof.
  intros He tr tr' r. unfold perform.
  destruct (io_error w tr e); intros H; inversion H.
  - exists []. rewrite app_nil_r. auto.
  - exists [e]. split; [reflexivity |]. constructor; [exact He | constructor].
Qed.

Lemma appends_only_when (P : event -> Prop) b (c : M unit) :
  (b = true -> appends_only P c) -> appends_only P (when b c).
Proof.
  destruct b; simpl; intros H.
  - apply H. reflexivity.
  - apply appends_only_ret.
Qed.

Create HintDb trace discriminated.
#[local] Hint Resolve appends_only_ret appends_only_raise appends_only_lift
  appends_only_emit appends_only_perform : trace.

(** One step of inversion on a run that returned normally. *)
Ltac run_step_fresh H :=
  let a := fresh "a" in
  let tr1 := fresh "tr" in
  let H1 := fresh "R" in
  apply bind_ok in H; destruct H as [a [tr1 [H1 H]]].

Tactic Notation "run_step" hyp(H) := run_step_fresh H.

Tactic Notation "run_step" hyp(H) "as" ident(a) ident(t) ident(R) :=
  apply bind_ok in H; destruct H as [a [t [R H]]].

(* ================================================================== *)
(** ** The loops *)
(* ================================================================== *)

Lemma load_images_run w images_path entries acc tr :
  load_images w images_path entries acc tr
  = (tr, inr (acc ++ selected w images_path entries)).
Proof.
  revert acc. induction entries as [| image rest IH]; intros acc.
  - cbn [load_images]. unfold ret, selected. cbn [filter map].
    rewrite app_nil_r. reflexivity.
  - cbn [load_images]. unfold bind, path_isfile, ret.
    fold (is_image w images_path image).
    unfold selected. cbn [filter].
    destruct (is_image w images_path image).
    + rewrite IH. unfold selected. cbn [map]. rewrite <- app_assoc.
      reflexivity.
    + apply IH.
Qed.

Lemma boxes_loop_acc id i r_cls rows anns :
  boxes_loop id i r_cls rows anns
  = match boxes_loop id i r_cls rows [] with
    | inl e => inl e
    | inr new => inr (anns ++ new)
    end.
Proof.
  revert id anns. induction rows as [| row rows IH]; intros id anns.
  - simpl. rewrite app_nil_r. reflexivity.
  - simpl. destruct (calculate_bbox id i r_cls row) as [e | a]; [reflexivity |].
    rewrite (IH (id + 1) (anns ++ [a])). rewrite (IH (id + 1) [a]).
    destruct (boxes_loop (id + 1) i r_cls rows []) as [e | new]; [reflexivity |].
    simpl. rewrite <- app_assoc. reflexivity.
Qed.

Lemma annotations_from_acc i results anns anns' :
  annotations_from i results anns = inr anns' ->
  exists blocks,
    Forall2 (fun ir new => boxes_of (fst ir) (snd ir) = inr new)
      (enumerate i results) blocks
    /\ anns' = anns ++ List.concat blocks.
Proof.
  revert i anns. induction results as [| r rest IH]; intros i anns H.
  - simpl in H. inversion H. exists []. simpl. rewrite app_nil_r.
    split; [constructor | reflexivity].
  - simpl in H. rewrite boxes_loop_acc in H.
    destruct (boxes_loop 1 i (Result.cls (Result.obb r))
                (Result.xywhr (Result.obb r)) []) as [e | new] eqn:E;
      [discriminate |].
    destruct (IH _ _ H) as [blocks [F ->]].
    exists (new :: blocks). simpl. split.
    + constructor; [exact E | exact F].
    + rewrite <- app_assoc. reflexivity.
Qed.

Lemma results_loop_ok w c i results imgs anns tr tr' imgs' anns' :
  results_loop w (Constants.save_image c) (Constants.save_annotation c)
    save_image_path save_txt_file_path i results imgs anns tr
  = (tr', inr (imgs', anns')) ->
  imgs' = imgs ++ image_records i results
  /\ annotations_from i results anns = inr anns'
  /\ tr' = tr ++ save_events c results.
Proof.
  revert i imgs anns tr. induction results as [| r rest IH];
    intros i imgs anns tr H.
  - simpl in H. apply ret_ok in H. destruct H as [-> E]. inversion E.
    simpl. rewrite !app_nil_r. auto.
  - simpl in H. run_step H. run_step H. run_step H.
    apply lift_ok in R1. destruct R1 as [-> R1].
    apply IH in H. destruct H as [-> [Ha ->]].
    assert (T : tr1 = tr ++ (if Constants.save_image c
                              then [SaveImage r (image_file r)] else [])
                         ++ (if Constants.save_annotation c
                             then [SaveTxt r (label_file r)] else [])).
    { apply when_ok in R. apply when_ok in R0.
      destruct R as [[-> R] | [-> ->]]; destruct R0 as [[-> R0] | [-> ->]].
      - apply perform_ok in R, R0. subst. rewrite <- app_assoc. reflexivity.
      - apply perform_ok in R. subst. rewrite app_nil_r. reflexivity.
      - apply perform_ok in R0. subst. reflexivity.
      - rewrite app_nil_r. reflexivity. }
    subst tr1. simpl. rewrite R1. repeat split.
    + rewrite <- app_assoc. reflexivity.
    + exact Ha.
    + unfold save_events. simpl. rewrite <- !app_assoc. reflexivity.
Qed.

Lemma results_loop_appends (P : event -> Prop) w c i results imgs anns :
  (forall r, Constants.save_image c = true -> P (SaveImage r (image_file r))) ->
  (forall r, Constants.save_annotation c = true -> P (SaveTxt r (label_file r))) ->
  appends_only P
    (results_loop w (Constants.save_image c) (Constants.save_annotation c)
       save_image_path save_txt_file_path i results imgs anns).
Proof.
  intros Hi Ht. revert i imgs anns.
  induction results as [| r rest IH]; intros i imgs anns.
  - simpl. auto with trace.
  - simpl. apply appends_only_bind.
    + apply appends_only_when. intros E. apply appends_only_perform.
      apply Hi. exact E.
    + intros _. apply appends_only_bind.
      * apply appends_only_when. intros E. apply appends_only_perform.
        apply Ht. exact E.
      * intros _. apply appends_only_bind; [auto with trace |].
        intros a. apply IH.
Qed.

(* ================================================================== *)
(** ** Runs of [main] *)
(* ================================================================== *)

Lemma document_built labels imgs anns :
  JDict (PyDict.update
           (PyDict.update
              (PyDict.update (PyDict.update [] coco_header)
                 [("categories", JList (categories_from 1 labels))])
              [("images", JList imgs)])
           [("annotations", JList anns)])
  = document labels imgs anns.
Proof. reflexivity. Qed.

Lemma ensure_dir_ok w (flag : bool) p tr tr' u :
  when flag
    (ex <- path_exists w p ;; when (negb ex) (perform w (MakeDirs p))) tr
  = (tr', inr u) ->
  tr' = tr ++ (if flag && negb (os_path_exists w p) then [MakeDirs p] else []).
Proof.
  intros H. apply when_ok in H. destruct H as [[-> H] | [-> ->]].
  - run_step H. apply ret_ok in R. destruct R as [-> ->].
    apply when_ok in H. simpl. destruct H as [[-> H] | [-> ->]].
    + apply perform_ok in H. exact H.
    + rewrite app_nil_r. reflexivity.
  - simpl. rewrite app_nil_r. reflexivity.
Qed.

Lemma main_ok w c tr0 tr :
  main w c tr0 = (tr, inr tt) ->
  exists labels anns,
    Constants.labels c = LabelsList labels
    /\ os_path_exists w (Constants.model_path c) = true
    /\ os_path_exists w (Constants.images_path c) = true
    /\ (exists entries, os_listdir w (Constants.images_path c) = inr entries)
    /\ snd (predict_stream w (Constants.model_path c) (images_paths_of w c)) = None
    /\ annotations_from 1 (results_of w c) [] = inr anns
    /\ tr = tr0 ++ complete_trace w c labels anns
    /\ match Constants.save_annotations_path c with
       | Some dir => os_path_exists w dir = true
       | None => True
       end.
Proof.
  unfold main. intros H.
  run_step H. apply ret_ok in R. destruct R as [-> ->].
  destruct (os_path_exists w (Constants.model_path c)) eqn:Em; cbn [negb] in H;
    [| run_step H; apply raise_ok in H; contradiction].
  run_step H. apply ret_ok in R. destruct R as [-> ->].
  destruct (os_path_exists w (Constants.images_path c)) eqn:Ei; cbn [negb] in H;
    [| run_step H; apply raise_ok in H; contradiction].
  run_step H as missing t0 S0.
  assert (Hsave : t0 = tr0
                  /\ (missing = false ->
                      match Constants.save_annotations_path c with
                      | Some dir => os_path_exists w dir = true
                      | None => True
                      end)).
  { destruct (Constants.save_annotations_path c) as [dir |].
    - run_step S0 as ex t S. apply ret_ok in S, S0.
      destruct S as [-> ->], S0 as [-> ->]. split; [reflexivity |].
      destruct (os_path_exists w dir); [reflexivity | discriminate].
    - apply ret_ok in S0. destruct S0 as [-> _]. split; [reflexivity | exact (fun _ => I)]. }
  destruct Hsave as [-> Hsave]. clear S0.
  destruct missing; [run_step H; apply raise_ok in H; contradiction |].
  specialize (Hsave eq_refl).
  destruct (Constants.labels c) as [labels | repr] eqn:El;
    [| run_step H; apply raise_ok in H; contradiction].
  run_step H as u1 t1 S1. apply ensure_dir_ok in S1.
  run_step H as u2 t2 S2. apply ensure_dir_ok in S2.
  run_step H as u3 t3 S3. apply emit_ok in S3.
  run_step H as u4 t4 S4. apply perform_ok in S4.
  run_step H as u5 t5 S5. apply emit_ok in S5.
  run_step H as entries t6 S6. apply lift_ok in S6. destruct S6 as [-> S6].
  run_step H as paths t7 S7. rewrite load_images_run in S7.
  inversion S7; subst t7 paths. clear S7. cbn [app] in H.
  assert (Ep : sorted (selected w (Constants.images_path c) entries)
               = images_paths_of w c).
  { unfold images_paths_of. rewrite S6. reflexivity. }
  rewrite Ep in H.
  run_step H as u8 t8 S8. apply emit_ok in S8.
  run_step H as u9 t9 S9. apply emit_ok in S9.
  run_step H as u10 t10 S10. apply perform_ok in S10.
  run_step H as lists t11 S11. destruct lists as [imgs anns].
  apply (results_loop_ok w c) in S11. destruct S11 as [Himgs [Hanns Htr]].
  cbn [app] in Himgs. cbn [fst snd] in H.
  destruct (snd (predict_stream w (Constants.model_path c) (images_paths_of w c)))
    eqn:Es; [apply raise_ok in H; contradiction |].
  run_step H as u12 t12 S12. apply emit_ok in S12.
  run_step H as u13 t13 S13. apply perform_ok in S13.
  run_step H as u14 t14 S14. apply perform_ok in S14.
  apply emit_ok in H.
  exists labels, anns.
  repeat split; try reflexivity.
  - exists entries. exact S6.
  - exact Hanns.
  - subst. rewrite document_built. unfold complete_trace, setup_events.
    fold (results_of w c). fold json_file_path.
    repeat rewrite <- app_assoc. reflexivity.
  - exact Hsave.
Qed.

Lemma load_images_appends P w images_path entries acc :
  appends_only P (load_images w images_path entries acc).
Proof.
  intros tr tr' r H. rewrite load_images_run in H. inversion H.
  exists []. rewrite app_nil_r. auto.
Qed.

Lemma ensure_dir_appends (P : event -> Prop) w (flag : bool) p :
  (flag = true -> P (MakeDirs p)) ->
  appends_only P
    (when flag
       (ex <- path_exists w p ;; when (negb ex) (perform w (MakeDirs p)))).
Proof.
  intros HP. apply appends_only_when. intros E.
  apply appends_only_bind; [apply appends_only_ret |].
  intros ex. apply appends_only_when. intros _.
  apply appends_only_perform. apply HP. exact E.
Qed.

(** Whatever its outcome, a run of [main] only performs the effects that
    the configuration permits. *)
Lemma main_appends w c : appends_only (permitted w c) (main w c).
Proof.
  unfold main.
  apply appends_only_bind; [apply appends_only_ret | intros ex1].
  destruct (negb ex1).
  { apply appends_only_bind; [apply appends_only_emit; exact I | intros _].
    apply appends_only_raise. }
  apply appends_only_bind; [apply appends_only_ret | intros ex2].
  destruct (negb ex2).
  { apply appends_only_bind; [apply appends_only_emit; exact I | intros _].
    apply appends_only_raise. }
  apply appends_only_bind.
  { destruct (Constants.save_annotations_path c).
    - apply appends_only_bind; [apply appends_only_ret | intros ex3].
      apply appends_only_ret.
    - apply appends_only_ret. }
  intros missing. destruct missing.
  { apply appends_only_bind; [apply appends_only_emit; exact I | intros _].
    apply appends_only_raise. }
  destruct (Constants.labels c) as [labels | repr].
  2:{ apply appends_only_bind; [apply appends_only_emit; exact I | intros _].
      apply appends_only_raise. }
  apply appends_only_bind.
  { apply ensure_dir_appends. intros E. left. split; [reflexivity | exact E]. }
  intros _. apply appends_only_bind.
  { apply ensure_dir_appends. intros E. right. split; [reflexivity | exact E]. }
  intros _.
  apply appends_only_bind; [apply appends_only_emit; exact I | intros _].
  apply appends_only_bind; [apply appends_only_perform; reflexivity | intros _].
  apply appends_only_bind; [apply appends_only_emit; exact I | intros _].
  apply appends_only_bind_ok; [apply appends_only_lift | intros entries He].
  destruct He as [t [t' He]]. apply lift_ok in He. destruct He as [_ He].
  apply appends_only_bind_ok; [apply load_images_appends | intros paths Hp].
  destruct Hp as [t1 [t1' Hp]]. rewrite load_images_run in Hp.
  injection Hp as _ Hp. cbn [app] in Hp. subst paths.
  assert (Ep : sorted (selected w (Constants.images_path c) entries)
               = images_paths_of w c).
  { unfold images_paths_of. rewrite He. reflexivity. }
  rewrite Ep.
  apply appends_only_bind; [apply appends_only_emit; exact I | intros _].
  apply appends_only_bind; [apply appends_only_emit; exact I | intros _].
  apply appends_only_bind.
  { apply appends_only_perform. split; [reflexivity |]. exists entries.
    exact He. }
  intros _. apply appends_only_bind.
  { apply (results_loop_appends (permitted w c) w c).
    - intros r E. split; [reflexivity | exact E].
    - intros r E. split; [reflexivity | exact E]. }
  intros lists.
  destruct (snd (predict_stream w (Constants.model_path c) (images_paths_of w c))).
  { apply appends_only_raise. }
  apply appends_only_bind; [apply appends_only_emit; exact I | intros _].
  apply appends_only_bind; [apply appends_only_perform; reflexivity | intros _].
  apply appends_only_bind; [apply appends_only_perform; reflexivity | intros _].
  apply appends_only_emit. exact I.
Qed.

Lemma main_permitted w c tr r :
  main w c [] = (tr, r) -> Forall (permitted w c) tr.
Proof.
  intros H. destruct (main_appends w c _ _ _ H) as [ext [-> F]]. exact F.
Qed.

Lemma perform_run w e tr : reliable w -> perform w e tr = (tr ++ [e], inr tt).
Proof. intros Hw. unfold perform. rewrite Hw. reflexivity. Qed.

Lemma results_loop_run w c i results imgs anns anns' tr :
  reliable w ->
  annotations_from i results anns = inr anns' ->
  results_loop w (Constants.save_image c) (Constants.save_annotation c)
    save_image_path save_txt_file_path i results imgs anns tr
  = (tr ++ save_events c results, inr (imgs ++ image_records i results, anns')).
Proof.
  intros Hw. revert i imgs anns tr.
  induction results as [| r rest IH]; intros i imgs anns tr H.
  - simpl in H. inversion H. simpl. unfold ret. rewrite !app_nil_r. reflexivity.
  - cbn [annotations_from] in H.
    destruct (boxes_loop 1 i (Result.cls (Result.obb r))
                (Result.xywhr (Result.obb r)) anns) as [e | anns1] eqn:E;
      [discriminate |].
    cbn [results_loop]. unfold bind at 1.
    assert (E1 : when (Constants.save_image c)
                   (perform w (SaveImage r (image_file r))) tr
                 = (tr ++ (if Constants.save_image c
                           then [SaveImage r (image_file r)] else []), inr tt)).
    { destruct (Constants.save_image c); simpl.
      - apply perform_run. exact Hw.
      - unfold ret. rewrite app_nil_r. reflexivity. }
    fold (image_file r). rewrite E1. unfold bind at 1.
    assert (E2 : forall t, when (Constants.save_annotation c)
                   (perform w (SaveTxt r (label_file r))) t
                 = (t ++ (if Constants.save_annotation c
                          then [SaveTxt r (label_file r)] else []), inr tt)).
    { intros t. destruct (Constants.save_annotation c); simpl.
      - apply perform_run. exact Hw.
      - unfold ret. rewrite app_nil_r. reflexivity. }
    fold (label_file r). rewrite E2. unfold bind at 1, lift. rewrite E.
    rewrite (IH _ _ _ _ H). cbn [image_records save_events flat_map].
    rewrite <- !app_assoc. reflexivity.
Qed.

Lemma ensure_dir_run w (flag : bool) p tr :
  reliable w ->
  when flag
    (ex <- path_exists w p ;; when (negb ex) (perform w (MakeDirs p))) tr
  = (tr ++ (if flag && negb (os_path_exists w p) then [MakeDirs p] else []),
     inr tt).
Proof.
  intros Hw. destruct flag; simpl.
  - unfold bind, path_exists, ret. destruct (os_path_exists w p); simpl.
    + rewrite app_nil_r. reflexivity.
    + apply perform_run. exact Hw.
  - unfold ret. rewrite app_nil_r. reflexivity.
Qed.

(** Enough for a run to complete: the paths exist, the labels are a list,
    the directory can be listed, the stream ends normally, every box
    converts and no effect fails. *)
Lemma main_completes w c labels entries anns tr0 :
  reliable w ->
  os_path_exists w (Constants.model_path c) = true ->
  os_path_exists w (Constants.images_path c) = true ->
  match Constants.save_annotations_path c with
  | Some p => os_path_exists w p = true
  | None => True
  end ->
  Constants.labels c = LabelsList labels ->
  os_listdir w (Constants.images_path c) = inr entries ->
  snd (predict_stream w (Constants.model_path c) (images_paths_of w c)) = None ->
  annotations_from 1 (results_of w c) [] = inr anns ->
  main w c tr0 = (tr0 ++ complete_trace w c labels anns, inr tt).
Proof.
  intros Hw Em Ei Es El Ed Hs Ha.
  assert (Ep : sorted (selected w (Constants.images_path c) entries)
               = images_paths_of w c).
  { unfold images_paths_of. rewrite Ed. reflexivity. }
  unfold main. unfold path_exists at 1 2. unfold bind at 1, ret at 1.
  rewrite Em. cbn [negb]. unfold bind at 1, ret at 1. rewrite Ei. cbn [negb].
  unfold bind at 1.
  assert (Em' : (match Constants.save_annotations_path c with
                 | Some p => ex <- path_exists w p ;; ret (negb ex)
                 | None => ret false
                 end) tr0 = (tr0, inr false)).
  { destruct (Constants.save_annotations_path c).
    - unfold bind, path_exists, ret. rewrite Es. reflexivity.
    - reflexivity. }
  rewrite Em'. rewrite El.
  unfold bind at 1. rewrite (ensure_dir_run w _ _ _ Hw).
  unfold bind at 1. rewrite (ensure_dir_run w _ _ _ Hw).
  unfold bind at 1, emit at 1.
  unfold bind at 1. rewrite (perform_run w _ _ Hw).
  unfold bind at 1, emit at 1.
  unfold bind at 1, listdir, lift. rewrite Ed.
  unfold bind at 1. rewrite load_images_run. cbn [app]. rewrite Ep.
  unfold bind at 1, emit at 1.
  unfold bind at 1, emit at 1.
  unfold bind at 1. rewrite (perform_run w _ _ Hw).
  unfold bind at 1. fold save_image_path save_txt_file_path (results_of w c).
  rewrite (results_loop_run w c _ _ _ _ anns _ Hw Ha). rewrite Hs.
  unfold bind at 1, emit at 1.
  unfold bind at 1. rewrite (perform_run w _ _ Hw).
  unfold bind at 1. rewrite (perform_run w _ _ Hw).
  unfold emit. cbn [fst snd app]. rewrite document_built.
  unfold complete_trace, setup_events. fold json_file_path.
  repeat rewrite <- app_assoc. reflexivity.
Qed.

(* ================================================================== *)
(** ** Records and their ids *)
(* ================================================================== *)

Lemma zseq_length start n : List.length (zseq start n) = n.
Proof.
  revert start. induction n as [| n IH]; intros start; simpl;
    [reflexivity | rewrite IH; reflexivity].
Qed.

Lemma zseq_In start n z :
  In z (zseq start n) <-> start <= z < start + Z.of_nat n.
Proof.
  revert start. induction n as [| n IH]; intros start.
  - simpl. lia.
  - cbn [zseq In]. rewrite IH. lia.
Qed.

Lemma zseq_NoDup start n : NoDup (zseq start n).
Proof.
  revert start. induction n as [| n IH]; intros start; simpl.
  - constructor.
  - constructor; [| apply IH]. rewrite zseq_In. lia.
Qed.

Lemma zseq_nth start n k :
  (k < n)%nat -> nth_error (zseq start n) k = Some (start + Z.of_nat k).
Proof.
  revert start k. induction n as [| n IH]; intros start k H; [lia |].
  destruct k as [| k]; simpl.
  - f_equal. lia.
  - rewrite IH by lia. f_equal. lia.
Qed.

Lemma document_categories labels imgs anns :
  items "categories" (document labels imgs anns) = categories_from 1 labels.
Proof. reflexivity. Qed.

Lemma document_images labels imgs anns :
  items "images" (document labels imgs anns) = imgs.
Proof. reflexivity. Qed.

Lemma document_annotations labels imgs anns :
  items "annotations" (document labels imgs anns) = anns.
Proof. reflexivity. Qed.

Lemma categories_ids i labels :
  ids (categories_from i labels) = map Some (zseq i (List.length labels)).
Proof.
  revert i. induction labels as [| l rest IH]; intros i; simpl;
    [reflexivity |].
  f_equal. apply IH.
Qed.

Lemma categories_names i labels :
  map (field "name") (categories_from i labels) = map Some labels.
Proof.
  revert i. induction labels as [| l rest IH]; intros i; simpl;
    [reflexivity |].
  f_equal. apply IH.
Qed.

Lemma categories_length i labels :
  List.length (categories_from i labels) = List.length labels.
Proof.
  revert i. induction labels as [| l rest IH]; intros i; simpl;
    [reflexivity | rewrite IH; reflexivity].
Qed.

Lemma categories_nth i labels k label :
  nth_error labels k = Some label ->
  nth_error (categories_from i labels) k
  = Some (JDict [("id", JInt (i + Z.of_nat k)); ("name", label);
                 ("supercategory", JStr "")]).
Proof.
  revert i k. induction labels as [| l rest IH]; intros i k H.
  - destruct k; discriminate.
  - destruct k as [| k]; cbn [categories_from nth_error] in *.
    + inversion H. subst. replace (i + Z.of_nat 0) with i by lia. reflexivity.
    + rewrite (IH (i + 1) k H).
      replace (i + 1 + Z.of_nat k) with (i + Z.of_nat (S k)) by lia.
      reflexivity.
Qed.

Lemma image_records_ids i results :
  ids (image_records i results) = map Some (zseq i (List.length results)).
Proof.
  revert i. induction results as [| r rest IH]; intros i; simpl;
    [reflexivity |].
  f_equal. apply IH.
Qed.

Lemma image_records_length i results :
  List.length (image_records i results) = List.length results.
Proof.
  revert i. induction results as [| r rest IH]; intros i; simpl;
    [reflexivity | rewrite IH; reflexivity].
Qed.

Lemma image_records_nth i results k r :
  nth_error results k = Some r ->
  nth_error (image_records i results) k = Some (new_image (i + Z.of_nat k) r).
Proof.
  revert i k. induction results as [| r0 rest IH]; intros i k H.
  - destruct k; discriminate.
  - destruct k as [| k]; cbn [image_records nth_error] in *.
    + inversion H. subst. replace (i + Z.of_nat 0) with i by lia. reflexivity.
    + rewrite (IH (i + 1) k H).
      replace (i + 1 + Z.of_nat k) with (i + Z.of_nat (S k)) by lia.
      reflexivity.
Qed.

(** What a successful call of [calculate_bbox] returns. *)
Lemma calculate_bbox_ok bbox_id img_id r_labels r_xywhr data :
  calculate_bbox bbox_id img_id r_labels r_xywhr = inr data ->
  exists c x y width height r,
    py_index r_labels (bbox_id - 1) = inr c
    /\ r_xywhr = [x; y; width; height; r]
    /\ int_field "id" data = Some bbox_id
    /\ int_field "image_id" data = Some img_id
    /\ int_field "category_id" data = Some (c + 1).
Proof.
  unfold calculate_bbox.
  destruct (py_index r_labels (bbox_id - 1)) as [e | c]; [discriminate |].
  destruct r_xywhr as [| x [| y [| width [| height [| r [| ? ?]]]]]];
    try discriminate.
  intros H. inversion H. exists c, x, y, width, height, r.
  repeat split; reflexivity.
Qed.

(** The block of annotations of one result: one per row, in order, each
    the value of [calculate_bbox] at the running id. *)
Lemma boxes_loop_ok id i r_cls rows new :
  boxes_loop id i r_cls rows [] = inr new ->
  Forall2 (fun kr a => calculate_bbox (fst kr) i r_cls (snd kr) = inr a)
    (enumerate id rows) new.
Proof.
  revert id new. induction rows as [| row rows IH]; intros id new H.
  - simpl in H. inversion H. constructor.
  - cbn [boxes_loop] in H.
    destruct (calculate_bbox id i r_cls row) as [e | a] eqn:E; [discriminate |].
    rewrite boxes_loop_acc in H.
    destruct (boxes_loop (id + 1) i r_cls rows []) as [e | new'] eqn:E';
      [discriminate |].
    injection H as <-. simpl. constructor; [exact E | apply IH; exact E'].
Qed.

Lemma enumerate_length {A : Type} start (l : list A) :
  List.length (enumerate start l) = List.length l.
Proof.
  revert start. induction l as [| a l IH]; intros start; simpl;
    [reflexivity | rewrite IH; reflexivity].
Qed.

Lemma enumerate_nth {A : Type} start (l : list A) k a :
  nth_error l k = Some a ->
  nth_error (enumerate start l) k = Some (start + Z.of_nat k, a).
Proof.
  revert start k. induction l as [| a0 l IH]; intros start k H.
  - destruct k; discriminate.
  - destruct k as [| k]; cbn [enumerate nth_error] in *.
    + inversion H. subst. replace (start + Z.of_nat 0) with start by lia.
      reflexivity.
    + rewrite (IH (start + 1) k H).
      replace (start + 1 + Z.of_nat k) with (start + Z.of_nat (S k)) by lia.
      reflexivity.
Qed.

Lemma boxes_loop_ids id i r_cls rows new :
  boxes_loop id i r_cls rows [] = inr new ->
  id_pairs new = map (fun k => (Some i, Some k)) (zseq id (List.length rows)).
Proof.
  revert id new. induction rows as [| row rows IH]; intros id new H.
  - simpl in H. inversion H. reflexivity.
  - cbn [boxes_loop] in H.
    destruct (calculate_bbox id i r_cls row) as [e | a] eqn:E; [discriminate |].
    rewrite boxes_loop_acc in H.
    destruct (boxes_loop (id + 1) i r_cls rows []) as [e | new'] eqn:E';
      [discriminate |].
    injection H as <-. simpl.
    destruct (calculate_bbox_ok _ _ _ _ _ E)
      as [c [x [y [wd [ht [r [_ [_ [Hid [Himg _]]]]]]]]]].
    rewrite Hid, Himg. f_equal. apply IH. exact E'.
Qed.

Lemma blocks_ids i results blocks :
  Forall2 (fun ir new => boxes_of (fst ir) (snd ir) = inr new)
    (enumerate i results) blocks ->
  id_pairs (List.concat blocks) = enumerated_pairs i results.
Proof.
  revert i blocks. induction results as [| r rest IH]; intros i blocks F.
  - inversion F. reflexivity.
  - cbn [enumerate] in F. inversion F as [| ir new ens blocks' Hb F']. subst.
    unfold enumerated_pairs. cbn [enumerate flat_map List.concat fst snd].
    unfold id_pairs. rewrite map_app. f_equal.
    + apply boxes_loop_ids with (r_cls := Result.cls (Result.obb r)).
      exact Hb.
    + apply IH. exact F'.
Qed.

Lemma annotations_ids i results anns :
  annotations_from i results [] = inr anns ->
  id_pairs anns = enumerated_pairs i results.
Proof.
  intros H. destruct (annotations_from_acc _ _ _ _ H) as [blocks [F ->]].
  apply blocks_ids. exact F.
Qed.

Lemma enumerated_pairs_length i results :
  List.length (enumerated_pairs i results) = box_count results.
Proof.
  revert i. induction results as [| r rest IH]; intros i.
  - reflexivity.
  - unfold enumerated_pairs, box_count in *.
    cbn [enumerate flat_map map list_sum fst snd].
    rewrite length_app, length_map, zseq_length.
    unfold list_sum in *. cbn [fold_right]. f_equal. apply IH.
Qed.

Lemma annotations_length i results anns :
  annotations_from i results [] = inr anns ->
  List.length anns = box_count results.
Proof.
  intros H. rewrite <- (enumerated_pairs_length i).
  rewrite <- (annotations_ids _ _ _ H). unfold id_pairs.
  rewrite length_map. reflexivity.
Qed.

Lemma enumerated_pairs_image i results p :
  In p (enumerated_pairs i results) ->
  exists j, fst p = Some j /\ i <= j.
Proof.
  revert i. induction results as [| r rest IH]; intros i H.
  - contradiction.
  - unfold enumerated_pairs in H. cbn [enumerate flat_map fst snd] in H.
    apply in_app_or in H. destruct H as [H | H].
    + apply in_map_iff in H. destruct H as [k [<- _]]. exists i. simpl.
      split; [reflexivity | lia].
    + destruct (IH (i + 1) H) as [j [E L]]. exists j. split; [exact E | lia].
Qed.

Lemma enumerated_pairs_NoDup i results : NoDup (enumerated_pairs i results).
Proof.
  revert i. induction results as [| r rest IH]; intros i.
  - constructor.
  - unfold enumerated_pairs. cbn [enumerate flat_map fst snd].
    apply NoDup_app.
    + apply NoDup_map_NoDup_ForallPairs; [| apply zseq_NoDup].
      intros x y _ _ E. congruence.
    + apply IH.
    + intros p Hp Hq. apply in_map_iff in Hp. destruct Hp as [k [<- _]].
      destruct (enumerated_pairs_image (i + 1) rest _ Hq) as [j [E L]].
      simpl in E. inversion E. lia.
Qed.

(* ================================================================== *)
(** ** The document of a completed run *)
(* ================================================================== *)

Lemma dumps_app tr1 tr2 : dumps (tr1 ++ tr2) = dumps tr1 ++ dumps tr2.
Proof.
  induction tr1 as [| e tr1 IH]; [reflexivity |].
  destruct e; simpl; rewrite IH; reflexivity.
Qed.

Lemma dumps_none tr :
  Forall (fun e => match e with JsonDump _ _ => False | _ => True end) tr ->
  dumps tr = [].
Proof.
  induction 1 as [| e tr He _ IH]; [reflexivity |].
  destruct e; simpl; try exact IH. contradiction.
Qed.

Lemma dumps_setup w c : dumps (setup_events w c) = [].
Proof.
  apply dumps_none. unfold setup_events.
  repeat (apply Forall_app; split);
    repeat match goal with
           | |- Forall _ (if ?b then _ else _) => destruct b
           | |- Forall _ (_ :: _) => constructor
           | |- Forall _ [] => constructor
           end; exact I.
Qed.

Lemma dumps_saves c results : dumps (save_events c results) = [].
Proof.
  apply dumps_none. unfold save_events. apply Forall_flat_map.
  apply Forall_forall. intros r _.
  destruct (Constants.save_image c), (Constants.save_annotation c);
    repeat constructor.
Qed.

Lemma dumps_complete w c labels anns :
  dumps (complete_trace w c labels anns)
  = [(json_file_path,
      document labels (image_records 1 (results_of w c)) anns)].
Proof.
  unfold complete_trace. rewrite !dumps_app, dumps_setup, dumps_saves.
  reflexivity.
Qed.

(** A run that completes dumps exactly one document, built from the
    configured labels and the results of the stream. *)
Lemma main_document w c tr :
  main w c [] = (tr, inr tt) ->
  exists labels anns,
    Constants.labels c = LabelsList labels
    /\ annotations_from 1 (results_of w c) [] = inr anns
    /\ tr = complete_trace w c labels anns
    /\ dumps tr
       = [(json_file_path,
           document labels (image_records 1 (results_of w c)) anns)].
Proof.
  intros H. destruct (main_ok _ _ _ _ H)
    as [labels [anns [El [_ [_ [_ [_ [Ha [Ht _]]]]]]]]].
  exists labels, anns. cbn [app] in Ht. subst tr.
  repeat split; try assumption. apply dumps_complete.
Qed.

Lemma Some_NoDup {A : Type} (l : list A) : NoDup l -> NoDup (map Some l).
Proof.
  intros H. apply NoDup_map_NoDup_ForallPairs; [| exact H].
  intros x y _ _ E. congruence.
Qed.

(* ================================================================== *)
(** ** Conversion of one oriented box *)
(* ================================================================== *)

Example degrees_of_pi : math_degrees Py_MATH_PI = 180%float.
Proof. reflexivity. Qed.

Example degrees_of_zero : math_degrees 0%float = 0%float.
Proof. reflexivity. Qed.

Example degrees_of_one : math_degrees 1%float = 0x1.ca5dc1a63c1f8p+5%float.
Proof. reflexivity. Qed.

Lemma calculate_bbox_returns bbox_id img_id r_labels c x y width height r :
  py_index r_labels (bbox_id - 1) = inr c ->
  exists data,
    calculate_bbox bbox_id img_id r_labels [x; y; width; height; r] = inr data.
Proof.
  intros H. unfold calculate_bbox. rewrite H. eexists. reflexivity.
Qed.

(** C1.  For an oriented box whose [xywhr] values are [(x, y, width,
    height, r)], [calculate_bbox] returns a record whose [bbox] is
    [[x - width/2, y - height/2, width, height]] and whose
    [attributes.rotation] is [math.degrees(r)].  The record is returned
    when the label lookup at [bbox_id - 1] succeeds, which is the only
    other thing the function does. *)
Theorem calculate_bbox_converts bbox_id img_id r_labels c x y width height r :
  py_index r_labels (bbox_id - 1) = inr c ->
  exists data,
    calculate_bbox bbox_id img_id r_labels [x; y; width; height; r] = inr data
    /\ field "bbox" data
       = Some (JList [JFloat (PrimFloat.sub x (PrimFloat.div width 2%float));
                      JFloat (PrimFloat.sub y (PrimFloat.div height 2%float));
                      JFloat width;
                      JFloat height])
    /\ attribute "rotation" data = Some (JFloat (math_degrees r)).
Proof.
  intros H. unfold calculate_bbox. rewrite H.
  eexists. split; [reflexivity |]. split; reflexivity.
Qed.

Lemma calculate_bbox_converts_witness :
  exists data,
    calculate_bbox 2 1 [0; 1] [1; 2; 3; 4; Py_MATH_PI]%float = inr data
    /\ field "bbox" data
       = Some (JList [JFloat (-0.5)%float; JFloat 0%float;
                      JFloat 3%float; JFloat 4%float])
    /\ attribute "rotation" data = Some (JFloat 180%float).
Proof.
  apply (calculate_bbox_converts 2 1 [0; 1] 1
           1%float 2%float 3%float 4%float Py_MATH_PI).
  reflexivity.
Defined.

(* ================================================================== *)
(** ** Ids in the document *)
(* ================================================================== *)

(** C3.  In the document of a completed run, category ids are 1, 2, ...
    in the order of the configured labels, image ids are 1, 2, ... in the
    order of the prediction results, and the annotations of the result
    numbered [i] carry image id [i] and ids 1, 2, ... one per oriented
    box, starting again at 1 for each result. *)
Theorem ids_follow_enumeration w c tr :
  main w c [] = (tr, inr tt) ->
  exists labels doc,
    Constants.labels c = LabelsList labels
    /\ dumps tr = [(json_file_path, doc)]
    /\ ids (items "categories" doc) = map Some (zseq 1 (List.length labels))
    /\ map (field "name") (items "categories" doc) = map Some labels
    /\ ids (items "images" doc)
       = map Some (zseq 1 (List.length (results_of w c)))
    /\ id_pairs (items "annotations" doc) = enumerated_pairs 1 (results_of w c).
Proof.
  intros H. destruct (main_document _ _ _ H) as [labels [anns [El [Ha [_ Hd]]]]].
  exists labels, (document labels (image_records 1 (results_of w c)) anns).
  rewrite document_categories, document_images, document_annotations.
  repeat split.
  - exact El.
  - exact Hd.
  - apply categories_ids.
  - apply categories_names.
  - apply image_records_ids.
  - apply annotations_ids. exact Ha.
Qed.

Lemma ids_follow_enumeration_witness :
  exists labels doc,
    Constants.labels Sample.constants = LabelsList labels
    /\ dumps Sample.run = [(json_file_path, doc)]
    /\ ids (items "categories" doc) = map Some (zseq 1 (List.length labels))
    /\ map (field "name") (items "categories" doc) = map Some labels
    /\ ids (items "images" doc)
       = map Some (zseq 1 (List.length (results_of Sample.world Sample.constants)))
    /\ id_pairs (items "annotations" doc)
       = enumerated_pairs 1 (results_of Sample.world Sample.constants).
Proof.
  apply (ids_follow_enumeration Sample.world Sample.constants Sample.run).
  vm_compute. reflexivity.
Defined.

Example sample_annotation_pairs :
  id_pairs (items "annotations" Sample.doc)
  = [(Some 1, Some 1); (Some 1, Some 2); (Some 2, Some 1)].
Proof. reflexivity. Qed.

(** C2, as stated, fails: the annotations list of a real run repeats an
    id.  The sample run has two images with boxes, and both blocks of
    annotations start at id 1. *)
Lemma annotation_ids_repeat :
  main Sample.world Sample.constants [] = (Sample.run, inr tt)
  /\ dumps Sample.run = [(json_file_path, Sample.doc)]
  /\ ids (items "annotations" Sample.doc) = [Some 1; Some 2; Some 1]
  /\ ~ NoDup (ids (items "annotations" Sample.doc)).
Proof.
  split; [vm_compute; reflexivity |].
  split; [vm_compute; reflexivity |].
  split; [vm_compute; reflexivity |].
  intros N. change (ids (items "annotations" Sample.doc))
    with [Some 1; Some 2; Some 1] in N.
  inversion N as [| x l Hx _]. apply Hx. right. left. reflexivity.
Qed.

(** C2, amended.  In the document of a completed run the category ids
    are the distinct numbers 1, 2, ..., so are the image ids, and in the
    annotations list the pairs (image id, id) are distinct: ids count 1,
    2, ... within each image. *)
Theorem ids_unique_per_list w c tr :
  main w c [] = (tr, inr tt) ->
  exists labels doc,
    Constants.labels c = LabelsList labels
    /\ dumps tr = [(json_file_path, doc)]
    /\ NoDup (ids (items "categories" doc))
    /\ ids (items "categories" doc) = map Some (zseq 1 (List.length labels))
    /\ NoDup (ids (items "images" doc))
    /\ ids (items "images" doc)
       = map Some (zseq 1 (List.length (results_of w c)))
    /\ NoDup (id_pairs (items "annotations" doc))
    /\ id_pairs (items "annotations" doc) = enumerated_pairs 1 (results_of w c).
Proof.
  intros H. destruct (main_document _ _ _ H) as [labels [anns [El [Ha [_ Hd]]]]].
  exists labels, (document labels (image_records 1 (results_of w c)) anns).
  rewrite document_categories, document_images, document_annotations.
  rewrite categories_ids, image_records_ids, (annotations_ids _ _ _ Ha).
  repeat split; try assumption; try reflexivity.
  - apply Some_NoDup, zseq_NoDup.
  - apply Some_NoDup, zseq_NoDup.
  - apply enumerated_pairs_NoDup.
Qed.

Lemma ids_unique_per_list_witness :
  exists labels doc,
    Constants.labels Sample.constants = LabelsList labels
    /\ dumps Sample.run = [(json_file_path, doc)]
    /\ NoDup (ids (items "categories" doc))
    /\ ids (items "categories" doc) = map Some (zseq 1 (List.length labels))
    /\ NoDup (ids (items "images" doc))
    /\ ids (items "images" doc)
       = map Some (zseq 1 (List.length (results_of Sample.world Sample.constants)))
    /\ NoDup (id_pairs (items "annotations" doc))
    /\ id_pairs (items "annotations" doc)
       = enumerated_pairs 1 (results_of Sample.world Sample.constants).
Proof.
  apply (ids_unique_per_list Sample.world Sample.constants Sample.run).
  vm_compute. reflexivity.
Defined.

(** C5.  The document of a completed run is a mapping with exactly the
    keys licenses, info, categories, images and annotations, in that
    order: the first two hold the fixed header records, categories holds
    one record per configured label, images one record per prediction
    result, annotations one record per oriented box of all results. *)
Theorem document_shape w c tr :
  main w c [] = (tr, inr tt) ->
  exists labels cats imgs anns,
    Constants.labels c = LabelsList labels
    /\ dumps tr
       = [(json_file_path,
           JDict [("licenses",
                   JList [JDict [("name", JStr ""); ("id", JInt 0);
                                 ("url", JStr "")]]);
                  ("info",
                   JDict [("contributor", JStr ""); ("date_created", JStr "");
                          ("description", JStr ""); ("url", JStr "");
                          ("version", JStr ""); ("year", JStr "")]);
                  ("categories", JList cats);
                  ("images", JList imgs);
                  ("annotations", JList anns)])]
    /\ map (field "name") cats = map Some labels
    /\ List.length imgs = List.length (results_of w c)
    /\ List.length anns = box_count (results_of w c).
Proof.
  intros H. destruct (main_document _ _ _ H) as [labels [anns [El [Ha [_ Hd]]]]].
  exists labels, (categories_from 1 labels),
    (image_records 1 (results_of w c)), anns.
  repeat split.
  - exact El.
  - exact Hd.
  - apply categories_names.
  - apply image_records_length.
  - apply (annotations_length 1). exact Ha.
Qed.

Lemma document_shape_witness :
  exists labels cats imgs anns,
    Constants.labels Sample.constants = LabelsList labels
    /\ dumps Sample.run
       = [(json_file_path,
           JDict [("licenses",
                   JList [JDict [("name", JStr ""); ("id", JInt 0);
                                 ("url", JStr "")]]);
                  ("info",
                   JDict [("contributor", JStr ""); ("date_created", JStr "");
                          ("description", JStr ""); ("url", JStr "");
                          ("version", JStr ""); ("year", JStr "")]);
                  ("categories", JList cats);
                  ("images", JList imgs);
                  ("annotations", JList anns)])]
    /\ map (field "name") cats = map Some labels
    /\ List.length imgs
       = List.length (results_of Sample.world Sample.constants)
    /\ List.length anns = box_count (results_of Sample.world Sample.constants).
Proof.
  apply (document_shape Sample.world Sample.constants Sample.run).
  vm_compute. reflexivity.
Defined.

Example sample_counts :
  List.length (items "categories" Sample.doc) = 2%nat
  /\ List.length (items "images" Sample.doc) = 2%nat
  /\ List.length (items "annotations" Sample.doc) = 3%nat.
Proof. repeat split. Qed.

(** C7.  In the document of a completed run, the image record at
    position [i] (counting from 1) has id [i], the second component of
    the [i]-th result's original shape as width, the first as height, and
    the base name of that result's path as file name. *)
Theorem image_record_of_result w c tr k r :
  main w c [] = (tr, inr tt) ->
  nth_error (results_of w c) k = Some r ->
  exists doc img,
    dumps tr = [(json_file_path, doc)]
    /\ nth_error (items "images" doc) k = Some img
    /\ int_field "id" img = Some (Z.of_nat k + 1)
    /\ int_field "width" img = Some (snd (Result.orig_shape r))
    /\ int_field "height" img = Some (fst (Result.orig_shape r))
    /\ field "file_name" img
       = Some (JStr (PosixPath.basename (Result.path r))).
Proof.
  intros H Hr.
  destruct (main_document _ _ _ H) as [labels [anns [El [Ha [_ Hd]]]]].
  exists (document labels (image_records 1 (results_of w c)) anns),
    (new_image (1 + Z.of_nat k) r).
  rewrite document_images. repeat split.
  - exact Hd.
  - apply image_records_nth. exact Hr.
  - change (Some (1 + Z.of_nat k) = Some (Z.of_nat k + 1)). f_equal. lia.
Qed.

Lemma image_record_of_result_witness :
  exists doc img,
    dumps Sample.run = [(json_file_path, doc)]
    /\ nth_error (items "images" doc) 1 = Some img
    /\ int_field "id" img = Some 2
    /\ int_field "width" img = Some 200
    /\ int_field "height" img = Some 100
    /\ field "file_name" img = Some (JStr "b.PNG").
Proof.
  apply (image_record_of_result Sample.world Sample.constants Sample.run
           1 Sample.result_b).
  - vm_compute. reflexivity.
  - reflexivity.
Defined.

(* ================================================================== *)
(** ** The label index *)
(* ================================================================== *)

Lemma py_index_nat {A : Type} (l : list A) k a :
  nth_error l k = Some a -> py_index l (Z.of_nat k) = inr a.
Proof.
  intros H. unfold py_index.
  assert (L : (k < List.length l)%nat).
  { apply nth_error_Some. rewrite H. discriminate. }
  destruct (Z.ltb_spec (Z.of_nat k) 0) as [? | _]; [lia |].
  destruct (Z.leb_spec 0 (Z.of_nat k)) as [_ | ?]; [| lia].
  destruct (Z.ltb_spec (Z.of_nat k) (Z.of_nat (List.length l))) as [_ | ?];
    [| lia].
  cbn [andb]. rewrite Nat2Z.id, H. reflexivity.
Qed.

Lemma py_index_nat_inv {A : Type} (l : list A) k a :
  py_index l (Z.of_nat k) = inr a -> nth_error l k = Some a.
Proof.
  unfold py_index.
  destruct (Z.ltb_spec (Z.of_nat k) 0) as [? | _]; [lia |].
  destruct ((0 <=? Z.of_nat k) && (Z.of_nat k <? Z.of_nat (List.length l)));
    [| discriminate].
  rewrite Nat2Z.id. destruct (nth_error l k); [| discriminate].
  intros H. inversion H. reflexivity.
Qed.

Lemma calculate_bbox_error bbox_id img_id r_labels r_xywhr c e :
  py_index r_labels (bbox_id - 1) = inr c ->
  calculate_bbox bbox_id img_id r_labels r_xywhr = inl e ->
  e <> IndexError.
Proof.
  intros Hc. unfold calculate_bbox. rewrite Hc.
  destruct r_xywhr as [| x [| y [| wd [| ht [| r [| ? ?]]]]]];
    intros H; inversion H; discriminate.
Qed.

Lemma boxes_loop_no_index_error k i r_cls rows anns e :
  (k + List.length rows <= List.length r_cls)%nat ->
  boxes_loop (Z.of_nat k + 1) i r_cls rows anns = inl e ->
  e <> IndexError.
Proof.
  revert k anns. induction rows as [| row rows IH]; intros k anns L H.
  - discriminate.
  - cbn [boxes_loop] in H. cbn [List.length] in L.
    destruct (nth_error r_cls k) as [c |] eqn:Ec.
    2:{ apply nth_error_None in Ec. lia. }
    assert (Hi : py_index r_cls (Z.of_nat k + 1 - 1) = inr c).
    { replace (Z.of_nat k + 1 - 1) with (Z.of_nat k) by lia.
      apply py_index_nat. exact Ec. }
    destruct (calculate_bbox (Z.of_nat k + 1) i r_cls row) as [e' | a] eqn:E.
    + inversion H. subst. eapply calculate_bbox_error; eassumption.
    + replace (Z.of_nat k + 1 + 1) with (Z.of_nat (S k) + 1) in H by lia.
      apply (IH (S k) _) in H; [exact H | lia].
Qed.

Lemma boxes_loop_total k i r_cls rows anns :
  (k + List.length rows <= List.length r_cls)%nat ->
  Forall (fun row => List.length row = 5%nat) rows ->
  exists new, boxes_loop (Z.of_nat k + 1) i r_cls rows anns = inr new.
Proof.
  revert k anns. induction rows as [| row rows IH]; intros k anns L F.
  - exists anns. reflexivity.
  - cbn [boxes_loop]. cbn [List.length] in L. inversion F as [| ? ? H5 F']. subst.
    destruct (nth_error r_cls k) as [c |] eqn:Ec.
    2:{ apply nth_error_None in Ec. lia. }
    destruct row as [| x [| y [| wd [| ht [| r [| ? ?]]]]]]; try discriminate.
    destruct (calculate_bbox_returns (Z.of_nat k + 1) i r_cls c x y wd ht r)
      as [a Ea].
    { replace (Z.of_nat k + 1 - 1) with (Z.of_nat k) by lia.
      apply py_index_nat. exact Ec. }
    rewrite Ea.
    replace (Z.of_nat k + 1 + 1) with (Z.of_nat (S k) + 1) by lia.
    apply IH; [lia | exact F'].
Qed.

Lemma Forall2_nth_right {A B : Type} (R : A -> B -> Prop) l l' k b :
  Forall2 R l l' -> nth_error l' k = Some b ->
  exists a, nth_error l k = Some a /\ R a b.
Proof.
  intros F. revert k. induction F as [| a0 b0 l l' HR F IH]; intros k H.
  - destruct k; discriminate.
  - destruct k as [| k]; simpl in *.
    + inversion H. subst. exists a0. split; [reflexivity | exact HR].
    + apply IH. exact H.
Qed.

Lemma enumerate_nth_inv {A : Type} start (l : list A) k z a :
  nth_error (enumerate start l) k = Some (z, a) ->
  z = start + Z.of_nat k /\ nth_error l k = Some a.
Proof.
  revert start k. induction l as [| a0 l IH]; intros start k H.
  - destruct k; discriminate.
  - destruct k as [| k]; cbn [enumerate nth_error] in *.
    + inversion H. subst. split; [lia | reflexivity].
    + destruct (IH _ _ H) as [-> E]. split; [lia | exact E].
Qed.

(** C10.  When the class sequence and the box sequence of a result have
    the same length, the label index [bbox_id - 1] is in bounds for every
    box, so the inner loop never raises [IndexError]; each annotation it
    emits has the class value at that index plus one as category id, and
    when that class value indexes the configured labels this is the id
    of the category record of that label.  The loop does emit all
    annotations when each row has its five values. *)
Theorem label_index_in_bounds i r_cls rows labels :
  List.length r_cls = List.length rows ->
  (forall k, (k < List.length rows)%nat ->
     exists cl, nth_error r_cls k = Some cl
                /\ py_index r_cls (Z.of_nat k + 1 - 1) = inr cl)
  /\ (forall anns e, boxes_loop 1 i r_cls rows anns = inl e -> e <> IndexError)
  /\ (Forall (fun row => List.length row = 5%nat) rows ->
      forall anns, exists block,
        boxes_loop 1 i r_cls rows anns = inr (anns ++ block)
        /\ List.length block = List.length rows)
  /\ (forall anns block,
        boxes_loop 1 i r_cls rows anns = inr (anns ++ block) ->
        forall k a, nth_error block k = Some a ->
          exists cl,
            nth_error r_cls k = Some cl
            /\ int_field "id" a = Some (Z.of_nat k + 1)
            /\ int_field "category_id" a = Some (cl + 1)
            /\ (0 <= cl < Z.of_nat (List.length labels) ->
                exists cat,
                  nth_error (categories_from 1 labels) (Z.to_nat cl) = Some cat
                  /\ int_field "id" cat = Some (cl + 1)
                  /\ field "name" cat = nth_error labels (Z.to_nat cl))).
Proof.
  intros L. split; [| split; [| split]].
  - intros k Hk. destruct (nth_error r_cls k) as [cl |] eqn:E.
    + exists cl. split; [reflexivity |].
      replace (Z.of_nat k + 1 - 1) with (Z.of_nat k) by lia.
      apply py_index_nat. exact E.
    + apply nth_error_None in E. lia.
  - intros anns e H. apply (boxes_loop_no_index_error 0 i r_cls rows anns e).
    + lia.
    + exact H.
  - intros F anns.
    destruct (boxes_loop_total 0 i r_cls rows [] ltac:(lia) F) as [block E].
    change (Z.of_nat 0 + 1) with 1 in E.
    exists block. rewrite boxes_loop_acc, E. split; [reflexivity |].
    apply boxes_loop_ids in E. apply (f_equal (@List.length _)) in E.
    unfold id_pairs in E. rewrite !length_map, zseq_length in E. exact E.
  - intros anns block H k a Ha.
    rewrite boxes_loop_acc in H.
    destruct (boxes_loop 1 i r_cls rows []) as [e | block'] eqn:E;
      [discriminate |].
    injection H as H. apply app_inv_head in H. subst block'.
    apply boxes_loop_ok in E.
    destruct (Forall2_nth_right _ _ _ _ _ E Ha) as [[z row] [Hn Hc]].
    apply enumerate_nth_inv in Hn. destruct Hn as [-> Hrow].
    cbn [fst snd] in Hc.
    destruct (calculate_bbox_ok _ _ _ _ _ Hc)
      as [cl [x [y [wd [ht [r [Hi [_ [Hid [_ Hcat]]]]]]]]]].
    replace (1 + Z.of_nat k - 1) with (Z.of_nat k) in Hi by lia.
    apply py_index_nat_inv in Hi.
    exists cl. split; [exact Hi |]. split.
    { rewrite Hid. f_equal. lia. }
    split; [exact Hcat |].
    intros Hb.
    destruct (nth_error labels (Z.to_nat cl)) as [label |] eqn:El.
    2:{ apply nth_error_None in El. lia. }
    eexists. split; [apply categories_nth; exact El |].
    split; [| reflexivity].
    change (Some (1 + Z.of_nat (Z.to_nat cl)) = Some (cl + 1)). f_equal. lia.
Qed.

Lemma label_index_in_bounds_witness :
  (forall k, (k < 2)%nat ->
     exists cl, nth_error [0; 1] k = Some cl
                /\ py_index [0; 1] (Z.of_nat k + 1 - 1) = inr cl)
  /\ (forall anns e,
        boxes_loop 1 1 [0; 1]
          (Result.xywhr (Result.obb Sample.result_a)) anns = inl e ->
        e <> IndexError)
  /\ (Forall (fun row => List.length row = 5%nat)
        (Result.xywhr (Result.obb Sample.result_a)) ->
      forall anns, exists block,
        boxes_loop 1 1 [0; 1]
          (Result.xywhr (Result.obb Sample.result_a)) anns = inr (anns ++ block)
        /\ List.length block = 2%nat)
  /\ (forall anns block,
        boxes_loop 1 1 [0; 1]
          (Result.xywhr (Result.obb Sample.result_a)) anns = inr (anns ++ block) ->
        forall k a, nth_error block k = Some a ->
          exists cl,
            nth_error [0; 1] k = Some cl
            /\ int_field "id" a = Some (Z.of_nat k + 1)
            /\ int_field "category_id" a = Some (cl + 1)
            /\ (0 <= cl < 2 ->
                exists cat,
                  nth_error (categories_from 1 [JStr "car"; JStr "boat"])
                    (Z.to_nat cl) = Some cat
                  /\ int_field "id" cat = Some (cl + 1)
                  /\ field "name" cat
                     = nth_error [JStr "car"; JStr "boat"] (Z.to_nat cl))).
Proof.
  apply (label_index_in_bounds 1 [0; 1]
           (Result.xywhr (Result.obb Sample.result_a))
           [JStr "car"; JStr "boat"]).
  reflexivity.
Defined.

(* ================================================================== *)
(** ** Strings and paths *)
(* ================================================================== *)

Lemma chars_app a b : PyStr.chars (a ++ b)%string = PyStr.chars a ++ PyStr.chars b.
Proof.
  induction a as [| ch a IH]; simpl; [reflexivity | rewrite IH; reflexivity].
Qed.

Lemma take_drop n s : (PyStr.take n s ++ PyStr.drop n s)%string = s.
Proof.
  revert s. induction n as [| n IH]; intros s; [reflexivity |].
  destruct s as [| ch s]; simpl; [reflexivity | rewrite IH; reflexivity].
Qed.

Lemma chars_take_incl n s ch :
  In ch (PyStr.chars (PyStr.take n s)) -> In ch (PyStr.chars s).
Proof.
  intros H. rewrite <- (take_drop n s), chars_app. apply in_or_app. left.
  exact H.
Qed.

(** [rfind] finds the last occurrence: nothing after it is the needle. *)
Lemma rfind_from_spec ch s i last :
  let j := PyStr.rfind_from ch s i last in
  (j = last /\ ~ In ch (PyStr.chars s))
  \/ (i <= j < i + Z.of_nat (String.length s)
      /\ ~ In ch (PyStr.chars (PyStr.drop (Z.to_nat (j - i + 1)) s))).
Proof.
  revert i last. induction s as [| d s IH]; intros i last; cbn zeta.
  - left. split; [reflexivity | intros []].
  - cbn [PyStr.rfind_from].
    specialize (IH (i + 1) (if Ascii.eqb d ch then i else last)).
    cbn zeta in IH.
    set (j := PyStr.rfind_from ch s (i + 1)
                (if Ascii.eqb d ch then i else last)) in *.
    destruct IH as [[Ej Hn] | [Hb Hn]].
    + destruct (Ascii.eqb_spec d ch) as [-> | Hd].
      * right. rewrite Ej. cbn [String.length]. split; [lia |].
        replace (i - i + 1) with 1 by lia. exact Hn.
      * left. split; [exact Ej |]. cbn [PyStr.chars]. intros [E | E];
          [exact (Hd E) | exact (Hn E)].
    + right. cbn [String.length]. split; [lia |].
      replace (Z.to_nat (j - i + 1)) with (S (Z.to_nat (j - (i + 1) + 1)))
        by lia.
      exact Hn.
Qed.

Lemma basename_no_sep p :
  ~ In PosixPath.sep (PyStr.chars (PosixPath.basename p)).
Proof.
  unfold PosixPath.basename, PyStr.rfind.
  destruct (rfind_from_spec PosixPath.sep p 0 (-1)) as [[E Hn] | [_ Hn]].
  - rewrite E. exact Hn.
  - replace (PyStr.rfind_from PosixPath.sep p 0 (-1) - 0 + 1)
      with (PyStr.rfind_from PosixPath.sep p 0 (-1) + 1) in Hn by lia.
    exact Hn.
Qed.

Lemma splitext_root_incl p ch :
  In ch (PyStr.chars (fst (PosixPath.splitext p))) -> In ch (PyStr.chars p).
Proof.
  unfold PosixPath.splitext.
  destruct ((PyStr.rfind PosixPath.sep p <? PyStr.rfind PosixPath.extsep p)
            && _); cbn [fst].
  - apply chars_take_incl.
  - auto.
Qed.

Lemma startswith_sep b :
  PyStr.startswith b "/" = true ->
  exists b', b = String PosixPath.sep b'.
Proof.
  unfold PyStr.startswith. destruct b as [| ch b]; cbn [String.prefix];
    [intros H; discriminate H |].
  destruct (ascii_dec "/" ch) as [<- | _]; intros H; [| discriminate H].
  exists b. reflexivity.
Qed.

(** Joining a directory that does not end with a separator and a
    component that does not start with one. *)
Lemma join1_relative d b :
  d <> "" -> PyStr.endswith d "/" = false ->
  PyStr.startswith b "/" = false ->
  PosixPath.join1 d b = (d ++ "/" ++ b)%string.
Proof.
  intros Hd He Hb. unfold PosixPath.join1. rewrite Hb, He.
  destruct (String.eqb_spec d ""); [contradiction | reflexivity].
Qed.

Lemma image_file_path r :
  image_file r
  = ("./predictions/images/" ++ PosixPath.basename (Result.path r))%string.
Proof.
  unfold image_file. cbn [PosixPath.join fold_left].
  change save_image_path with "./predictions/images".
  rewrite join1_relative; [reflexivity | discriminate | reflexivity |].
  destruct (PyStr.startswith _ "/") eqn:E; [| reflexivity].
  apply startswith_sep in E. destruct E as [b' E].
  exfalso. apply (basename_no_sep (Result.path r)). rewrite E. left.
  reflexivity.
Qed.

Lemma label_file_path r :
  label_file r
  = ("./predictions/annotations/"
     ++ fst (PosixPath.splitext (PosixPath.basename (Result.path r)))
     ++ ".txt")%string.
Proof.
  unfold label_file. cbn [PosixPath.join fold_left].
  change save_txt_file_path with "./predictions/annotations".
  rewrite join1_relative; [reflexivity | discriminate | reflexivity |].
  destruct (PyStr.startswith _ "/") eqn:E; [| reflexivity].
  apply startswith_sep in E. destruct E as [b' E].
  exfalso. apply (basename_no_sep (Result.path r)).
  apply splitext_root_incl.
  destruct (fst (PosixPath.splitext (PosixPath.basename (Result.path r))))
    as [| ch root].
  - discriminate E.
  - simpl in E. inversion E. left. reflexivity.
Qed.

Example json_file_path_value : json_file_path = "./instances.json".
Proof. reflexivity. Qed.

(* ================================================================== *)
(** ** Validation and output locations *)
(* ================================================================== *)

(** C6.  When the configured model path or images path does not exist,
    [main] raises [FileNotFoundError] having done nothing but print one
    line: the detector is not constructed, no prediction is run, and no
    file or directory is created. *)
Theorem missing_path_raises_first w c :
  os_path_exists w (Constants.model_path c) = false
  \/ os_path_exists w (Constants.images_path c) = false ->
  exists shown msg,
    main w c [] = ([Print shown], inl (FileNotFoundError msg))
    /\ Forall (fun e => is_output e = false /\ is_detector_call e = false)
         [Print shown].
Proof.
  intros H. unfold main, bind, path_exists, ret, emit, raise.
  destruct (os_path_exists w (Constants.model_path c)) eqn:Em; cbn [negb app].
  - destruct H as [H | H]; [discriminate |]. rewrite H. cbn [negb app].
    eexists. eexists. split; [reflexivity |].
    constructor; [split; reflexivity | constructor].
  - eexists. eexists. split; [reflexivity |].
    constructor; [split; reflexivity | constructor].
Qed.

Lemma missing_path_raises_first_witness :
  exists shown msg,
    main Sample.world Sample.no_model []
    = ([Print shown], inl (FileNotFoundError msg))
    /\ Forall (fun e => is_output e = false /\ is_detector_call e = false)
         [Print shown].
Proof.
  apply (missing_path_raises_first Sample.world Sample.no_model).
  left. reflexivity.
Defined.

Example sample_no_model_run :
  main Sample.world Sample.no_model []
  = ([Print "Model path not found: missing.pt"],
     inl (FileNotFoundError
            "Model path not found: missing.pt was not found")).
Proof. reflexivity. Qed.

(** C4.  A run that completes writes the document to [./instances.json]
    and nowhere else, whatever [save_annotations_path] is configured: a
    configured directory has been checked to exist, and is then not
    used. *)
Theorem json_goes_to_current_directory w c tr :
  main w c [] = (tr, inr tt) ->
  match Constants.save_annotations_path c with
  | Some dir => os_path_exists w dir = true
  | None => True
  end
  /\ (exists doc, dumps tr = [("./instances.json", doc)])
  /\ In (OpenWrite "./instances.json") tr
  /\ (forall p, In (OpenWrite p) tr -> p = "./instances.json")
  /\ (forall p doc, In (JsonDump p doc) tr -> p = "./instances.json").
Proof.
  intros H.
  destruct (main_ok _ _ _ _ H)
    as [labels [anns [_ [_ [_ [_ [_ [_ [Ht Hs]]]]]]]]].
  cbn [app] in Ht. split; [exact Hs |]. split; [| split; [| split]].
  - subst tr. rewrite dumps_complete. eexists. reflexivity.
  - subst tr. unfold complete_trace. apply in_or_app. right.
    apply in_or_app. right. right. left. reflexivity.
  - intros p Hp. pose proof (main_permitted _ _ _ _ H) as F.
    rewrite Forall_forall in F. exact (F _ Hp).
  - intros p doc Hp. pose proof (main_permitted _ _ _ _ H) as F.
    rewrite Forall_forall in F. exact (F _ Hp).
Qed.

Lemma json_goes_to_current_directory_witness :
  match Constants.save_annotations_path Sample.constants with
  | Some dir => os_path_exists Sample.world dir = true
  | None => True
  end
  /\ (exists doc, dumps Sample.run = [("./instances.json", doc)])
  /\ In (OpenWrite "./instances.json") Sample.run
  /\ (forall p, In (OpenWrite p) Sample.run -> p = "./instances.json")
  /\ (forall p doc, In (JsonDump p doc) Sample.run -> p = "./instances.json").
Proof.
  apply (json_goes_to_current_directory Sample.world Sample.constants).
  vm_compute. reflexivity.
Defined.

Example sample_configured_directory :
  Constants.save_annotations_path Sample.constants = Some "out"
  /\ map fst (dumps Sample.run) = ["./instances.json"].
Proof. split; reflexivity. Qed.

(** C9.  Whatever the outcome of a run, an annotated image is saved only
    when [save_image] is set, and then as
    [./predictions/images/<base name>]; a label file is saved only when
    [save_annotation] is set, and then as
    [./predictions/annotations/<root>.txt].  In a run that completes,
    every result has its image saved exactly when the first flag is set
    and its label file exactly when the second is.  With both flags off
    the only output of a run is the JSON file. *)
Theorem saving_follows_flags w c tr res :
  main w c [] = (tr, res) ->
  (forall r f, In (SaveImage r f) tr ->
     Constants.save_image c = true
     /\ f = ("./predictions/images/"
             ++ PosixPath.basename (Result.path r))%string)
  /\ (forall r f, In (SaveTxt r f) tr ->
        Constants.save_annotation c = true
        /\ f = ("./predictions/annotations/"
                ++ fst (PosixPath.splitext (PosixPath.basename (Result.path r)))
                ++ ".txt")%string)
  /\ (res = inr tt ->
      forall r, In r (results_of w c) ->
        (In (SaveImage r (image_file r)) tr <-> Constants.save_image c = true)
        /\ (In (SaveTxt r (label_file r)) tr
            <-> Constants.save_annotation c = true))
  /\ (Constants.save_image c = false ->
      Constants.save_annotation c = false ->
      forall e, In e tr -> is_output e = true ->
        e = OpenWrite "./instances.json"
        \/ exists doc, e = JsonDump "./instances.json" doc).
Proof.
  intros H. pose proof (main_permitted _ _ _ _ H) as F.
  rewrite Forall_forall in F.
  assert (Hi : forall r f, In (SaveImage r f) tr ->
                 Constants.save_image c = true
                 /\ f = ("./predictions/images/"
                         ++ PosixPath.basename (Result.path r))%string).
  { intros r f Hin. destruct (F _ Hin) as [-> E]. split; [exact E |].
    apply image_file_path. }
  assert (Ht : forall r f, In (SaveTxt r f) tr ->
                 Constants.save_annotation c = true
                 /\ f = ("./predictions/annotations/"
                         ++ fst (PosixPath.splitext
                                   (PosixPath.basename (Result.path r)))
                         ++ ".txt")%string).
  { intros r f Hin. destruct (F _ Hin) as [-> E]. split; [exact E |].
    apply label_file_path. }
  split; [exact Hi |]. split; [exact Ht |]. split.
  - intros -> r Hr.
    destruct (main_ok _ _ _ _ H)
      as [labels [anns [_ [_ [_ [_ [_ [_ [Etr _]]]]]]]]].
    cbn [app] in Etr.
    assert (Hs : forall e,
               In e ((if Constants.save_image c
                      then [SaveImage r (image_file r)] else [])
                     ++ (if Constants.save_annotation c
                         then [SaveTxt r (label_file r)] else [])) ->
               In e tr).
    { intros e He. subst tr. unfold complete_trace. apply in_or_app. right.
      apply in_or_app. left. unfold save_events. apply in_flat_map.
      exists r. split; [exact Hr | exact He]. }
    split; split.
    + intros Hin. exact (proj1 (Hi _ _ Hin)).
    + intros E. apply Hs. rewrite E. left. reflexivity.
    + intros Hin. exact (proj1 (Ht _ _ Hin)).
    + intros E. apply Hs. rewrite E. apply in_or_app. right. left.
      reflexivity.
  - intros Ei Et e Hin Ho. specialize (F _ Hin).
    destruct e; try discriminate Ho; cbn [permitted] in F.
    + destruct F as [[_ E] | [_ E]]; congruence.
    + destruct F as [_ E]. congruence.
    + destruct F as [_ E]. congruence.
    + left. rewrite F. reflexivity.
    + right. exists doc. rewrite F. reflexivity.
Qed.

Lemma saving_follows_flags_witness :
  (forall r f, In (SaveImage r f) Sample.run ->
     Constants.save_image Sample.constants = true
     /\ f = ("./predictions/images/"
             ++ PosixPath.basename (Result.path r))%string)
  /\ (forall r f, In (SaveTxt r f) Sample.run ->
        Constants.save_annotation Sample.constants = true
        /\ f = ("./predictions/annotations/"
                ++ fst (PosixPath.splitext (PosixPath.basename (Result.path r)))
                ++ ".txt")%string)
  /\ (@inr exn unit tt = inr tt ->
      forall r, In r (results_of Sample.world Sample.constants) ->
        (In (SaveImage r (image_file r)) Sample.run
         <-> Constants.save_image Sample.constants = true)
        /\ (In (SaveTxt r (label_file r)) Sample.run
            <-> Constants.save_annotation Sample.constants = true))
  /\ (Constants.save_image Sample.constants = false ->
      Constants.save_annotation Sample.constants = false ->
      forall e, In e Sample.run -> is_output e = true ->
        e = OpenWrite "./instances.json"
        \/ exists doc, e = JsonDump "./instances.json" doc).
Proof.
  apply (saving_follows_flags Sample.world Sample.constants Sample.run (inr tt)).
  vm_compute. reflexivity.
Defined.

Example sample_outputs :
  filter is_output Sample.run
  = [SaveImage Sample.result_a "./predictions/images/a.jpg";
     SaveTxt Sample.result_a "./predictions/annotations/a.txt";
     SaveImage Sample.result_b "./predictions/images/b.PNG";
     SaveTxt Sample.result_b "./predictions/annotations/b.txt";
     OpenWrite "./instances.json";
     JsonDump "./instances.json" Sample.doc].
Proof. reflexivity. Qed.

Example sample_quiet_outputs :
  main Sample.world Sample.quiet [] = (Sample.quiet_run, inr tt)
  /\ filter is_output Sample.quiet_run
     = [OpenWrite "./instances.json"; JsonDump "./instances.json" Sample.doc].
Proof. split; vm_compute; reflexivity. Qed.

(* ================================================================== *)
(** ** Selection and order of the images *)
(* ================================================================== *)

Lemma path_le_trans a b c : path_le a b -> path_le b c -> path_le a c.
Proof.
  unfold path_le, PyStr.leb, String.leb.
  revert b c. induction a as [| x a IH]; intros b c.
  - destruct c; reflexivity.
  - destruct b as [| y b]; [discriminate |].
    destruct c as [| z c]; [intros _ H; exact H |].
    cbn [String.compare]. unfold Ascii.compare.
    destruct (N.compare_spec (N_of_ascii x) (N_of_ascii y)) as [Exy | Lxy | Gxy];
      destruct (N.compare_spec (N_of_ascii y) (N_of_ascii z)) as [Eyz | Lyz | Gyz];
      try discriminate; intros Hab Hbc.
    + rewrite Exy, Eyz, N.compare_refl. apply (IH b c); assumption.
    + rewrite Exy. apply N.compare_lt_iff in Lyz. rewrite Lyz. reflexivity.
    + rewrite <- Eyz. apply N.compare_lt_iff in Lxy. rewrite Lxy. reflexivity.
    + assert (L : (N_of_ascii x < N_of_ascii z)%N) by lia.
      apply N.compare_lt_iff in L. rewrite L. reflexivity.
Qed.

Lemma path_le_total a b : path_le a b \/ path_le b a.
Proof. apply String.leb_total. Qed.

Lemma insert_sorted_perm x l : Permutation (insert_sorted x l) (x :: l).
Proof.
  induction l as [| y l IH]; simpl; [apply Permutation_refl |].
  destruct (PyStr.leb x y); [apply Permutation_refl |].
  apply perm_trans with (y :: x :: l); [| apply perm_swap].
  apply perm_skip. exact IH.
Qed.

Lemma sorted_perm l : Permutation (sorted l) l.
Proof.
  induction l as [| x l IH]; simpl; [apply perm_nil |].
  apply perm_trans with (x :: sorted l); [apply insert_sorted_perm |].
  apply perm_skip. exact IH.
Qed.

Lemma insert_sorted_strongly x l :
  StronglySorted path_le l -> StronglySorted path_le (insert_sorted x l).
Proof.
  induction 1 as [| y l Hs IH Hy]; simpl.
  - constructor; constructor.
  - destruct (PyStr.leb x y) eqn:E.
    + constructor; [constructor; assumption |].
      constructor; [exact E |].
      apply Forall_impl with (P := path_le y); [| exact Hy].
      intros z Hz. apply path_le_trans with y; assumption.
    + constructor; [exact IH |].
      assert (Hyx : path_le y x).
      { destruct (path_le_total x y) as [H | H]; [| exact H].
        unfold path_le in H. congruence. }
      apply Forall_forall. intros z Hz.
      apply (Permutation_in _ (insert_sorted_perm x l)) in Hz.
      destruct Hz as [<- | Hz]; [exact Hyx |].
      rewrite Forall_forall in Hy. apply Hy. exact Hz.
Qed.

Lemma sorted_strongly l : StronglySorted path_le (sorted l).
Proof.
  induction l as [| x l IH]; simpl; [constructor |].
  apply insert_sorted_strongly. exact IH.
Qed.

Lemma lower_app a b :
  PyStr.lower (a ++ b)%string = (PyStr.lower a ++ PyStr.lower b)%string.
Proof.
  induction a as [| ch a IH]; simpl; [reflexivity | rewrite IH; reflexivity].
Qed.

(** [endswith] after [lower] is the suffix test that ignores case. *)
Lemma endswith_lower name ext :
  PyStr.endswith (PyStr.lower name) ext = true <-> ends_with_ci name ext.
Proof.
  unfold ends_with_ci. induction name as [| ch name IH].
  - cbn [PyStr.lower PyStr.endswith]. split.
    + destruct (String.eqb_spec "" ext) as [<- | _]; [| discriminate].
      intros _. exists "", "". split; reflexivity.
    + intros [pre [suf [E L]]]. destruct pre; [| discriminate].
      simpl in E. subst suf. simpl in L. subst ext. reflexivity.
  - cbn [PyStr.lower PyStr.endswith]. split.
    + destruct (String.eqb_spec
                  (String (PyStr.lower_ascii ch) (PyStr.lower name)) ext)
        as [E | _].
      * intros _. exists "", (String ch name). split; [reflexivity | exact E].
      * intros H. apply IH in H. destruct H as [pre [suf [E L]]].
        exists (String ch pre), suf. split; [| exact L].
        simpl. rewrite E. reflexivity.
    + intros [pre [suf [E L]]]. destruct pre as [| ch' pre].
      * simpl in E. subst suf. cbn [PyStr.lower] in L. rewrite L.
        rewrite String.eqb_refl. reflexivity.
      * simpl in E. injection E as _ E.
        destruct (String.eqb _ ext); [reflexivity |].
        apply IH. exists pre, suf. split; assumption.
Qed.

Lemma is_image_spec w images_path image :
  is_image w images_path image = true <->
  os_path_isfile w (PosixPath.join images_path [image]) = true
  /\ (ends_with_ci image ".jpg" \/ ends_with_ci image ".jpeg"
      \/ ends_with_ci image ".png").
Proof.
  unfold is_image, PyStr.endswith_any, image_suffixes. cbn [existsb].
  rewrite andb_true_iff, !orb_true_iff, !endswith_lower. intuition discriminate.
Qed.

Lemma selected_spec w images_path entries p :
  In p (selected w images_path entries) <->
  exists image,
    In image entries
    /\ p = PosixPath.join images_path [image]
    /\ os_path_isfile w p = true
    /\ (ends_with_ci image ".jpg" \/ ends_with_ci image ".jpeg"
        \/ ends_with_ci image ".png").
Proof.
  unfold selected. rewrite in_map_iff. split.
  - intros [image [<- Hf]]. apply filter_In in Hf. destruct Hf as [Hin Hi].
    apply is_image_spec in Hi. destruct Hi as [Hf Hs].
    exists image. repeat split; assumption.
  - intros [image [Hin [-> [Hf Hs]]]]. exists image. split; [reflexivity |].
    apply filter_In. split; [exact Hin |]. apply is_image_spec.
    split; assumption.
Qed.

(** C8.  The sources handed to the detector are the entries of
    [images_path] that are regular files and whose names end in [.jpg],
    [.jpeg] or [.png] whatever the case, each joined to [images_path],
    in the code-point order of the full paths.  When the stream yields
    one result per source in that order, the image at position [k] of the
    sorted paths gets image id [k] (counting from 1). *)
Theorem images_selected_and_sorted w c tr res paths :
  main w c [] = (tr, res) ->
  In (Predict paths) tr ->
  exists entries,
    os_listdir w (Constants.images_path c) = inr entries
    /\ (forall p,
          In p paths <->
          exists image,
            In image entries
            /\ p = PosixPath.join (Constants.images_path c) [image]
            /\ os_path_isfile w p = true
            /\ (ends_with_ci image ".jpg" \/ ends_with_ci image ".jpeg"
                \/ ends_with_ci image ".png"))
    /\ Permutation paths (selected w (Constants.images_path c) entries)
    /\ StronglySorted path_le paths
    /\ (res = inr tt ->
        map Result.path (results_of w c) = paths ->
        forall k p, nth_error paths k = Some p ->
          exists doc img,
            dumps tr = [(json_file_path, doc)]
            /\ nth_error (items "images" doc) k = Some img
            /\ int_field "id" img = Some (Z.of_nat k + 1)
            /\ field "file_name" img = Some (JStr (PosixPath.basename p))).
Proof.
  intros H Hin. pose proof (main_permitted _ _ _ _ H) as F.
  rewrite Forall_forall in F. destruct (F _ Hin) as [-> [entries He]].
  exists entries. split; [exact He |].
  assert (Ep : images_paths_of w c
               = sorted (selected w (Constants.images_path c) entries)).
  { unfold images_paths_of. rewrite He. reflexivity. }
  split; [| split; [| split]].
  - intros p. rewrite <- selected_spec. rewrite Ep. split; intros Hp.
    + exact (Permutation_in _ (sorted_perm _) Hp).
    + exact (Permutation_in _ (Permutation_sym (sorted_perm _)) Hp).
  - rewrite Ep. apply sorted_perm.
  - rewrite Ep. apply sorted_strongly.
  - intros -> Hr k p Hk.
    destruct (main_document _ _ _ H) as [labels [anns [_ [_ [_ Hd]]]]].
    rewrite <- Hr in Hk. rewrite nth_error_map in Hk.
    destruct (nth_error (results_of w c) k) as [r |] eqn:Er; [| discriminate].
    injection Hk as <-.
    exists (document labels (image_records 1 (results_of w c)) anns),
      (new_image (1 + Z.of_nat k) r).
    rewrite document_images. repeat split.
    + exact Hd.
    + apply image_records_nth. exact Er.
    + change (Some (1 + Z.of_nat k) = Some (Z.of_nat k + 1)). f_equal. lia.
Qed.

Example sample_sources :
  images_paths_of Sample.world Sample.constants = ["imgs/a.jpg"; "imgs/b.PNG"].
Proof. reflexivity. Qed.

Lemma images_selected_and_sorted_witness :
  exists entries,
    os_listdir Sample.world (Constants.images_path Sample.constants)
    = inr entries
    /\ (forall p,
          In p ["imgs/a.jpg"; "imgs/b.PNG"] <->
          exists image,
            In image entries
            /\ p = PosixPath.join (Constants.images_path Sample.constants) [image]
            /\ os_path_isfile Sample.world p = true
            /\ (ends_with_ci image ".jpg" \/ ends_with_ci image ".jpeg"
                \/ ends_with_ci image ".png"))
    /\ Permutation ["imgs/a.jpg"; "imgs/b.PNG"]
         (selected Sample.world (Constants.images_path Sample.constants) entries)
    /\ StronglySorted path_le ["imgs/a.jpg"; "imgs/b.PNG"]
    /\ (@inr exn unit tt = inr tt ->
        map Result.path (results_of Sample.world Sample.constants)
        = ["imgs/a.jpg"; "imgs/b.PNG"] ->
        forall k p, nth_error ["imgs/a.jpg"; "imgs/b.PNG"] k = Some p ->
          exists doc img,
            dumps Sample.run = [(json_file_path, doc)]
            /\ nth_error (items "images" doc) k = Some img
            /\ int_field "id" img = Some (Z.of_nat k + 1)
            /\ field "file_name" img = Some (JStr (PosixPath.basename p))).
Proof.
  apply (images_selected_and_sorted Sample.world Sample.constants
           Sample.run (inr tt) ["imgs/a.jpg"; "imgs/b.PNG"]).
  - vm_compute. reflexivity.
  - vm_compute. do 5 right. left. reflexivity.
Defined.

(* ================================================================== *)
(** ** Further properties: validation *)
(* ================================================================== *)

(** X1.  When both paths exist and the output directory passes its
    check, labels that are not a list make [main] raise [ValueError]
    after one printed line: no directory is created and the detector is
    not constructed. *)
Theorem labels_must_be_a_list w c repr :
  os_path_exists w (Constants.model_path c) = true ->
  os_path_exists w (Constants.images_path c) = true ->
  match Constants.save_annotations_path c with
  | Some dir => os_path_exists w dir = true
  | None => True
  end ->
  Constants.labels c = LabelsOther repr ->
  main w c []
  = ([Print ("Incorrect labels format: " ++ repr)%string],
     inl (ValueError
            ("Incorrect labels format: " ++ repr ++ " should be a list")%string)).
Proof.
  intros Em Ei Es El. unfold main, bind, path_exists, ret, emit, raise.
  rewrite Em, Ei. cbn [negb]. rewrite El.
  destruct (Constants.save_annotations_path c) as [dir |].
  - rewrite Es. reflexivity.
  - reflexivity.
Qed.

Lemma labels_must_be_a_list_witness :
  main Sample.world Cases.bad_labels []
  = ([Print "Incorrect labels format: car"],
     inl (ValueError "Incorrect labels format: car should be a list")).
Proof.
  apply (labels_must_be_a_list Sample.world Cases.bad_labels "car");
    reflexivity || exact I.
Defined.

(** X2.  When both paths exist and a configured output directory does
    not, [main] raises [FileNotFoundError] after one printed line,
    whatever the labels are: the directory is checked before the labels,
    and nothing else has happened. *)
Theorem output_directory_must_exist w c dir :
  os_path_exists w (Constants.model_path c) = true ->
  os_path_exists w (Constants.images_path c) = true ->
  Constants.save_annotations_path c = Some dir ->
  os_path_exists w dir = false ->
  main w c []
  = ([Print ("Save annotations path not found: " ++ dir)%string],
     inl (FileNotFoundError
            ("Save annotations path not found: " ++ dir
             ++ " was not found")%string)).
Proof.
  intros Em Ei Es Ed. unfold main, bind, path_exists, ret, emit, raise.
  rewrite Em, Ei. cbn [negb]. rewrite Es, Ed. reflexivity.
Qed.

Lemma output_directory_must_exist_witness :
  main Cases.fresh_world Cases.no_save_dir []
  = ([Print "Save annotations path not found: nowhere"],
     inl (FileNotFoundError
            "Save annotations path not found: nowhere was not found")).
Proof.
  apply (output_directory_must_exist Cases.fresh_world Cases.no_save_dir
           "nowhere"); reflexivity.
Defined.

(* ================================================================== *)
(** ** Further properties: the outcome of [calculate_bbox] *)
(* ================================================================== *)

Lemma py_index_in_range {A : Type} (l : list A) i d :
  - Z.of_nat (List.length l) <= i < Z.of_nat (List.length l) ->
  py_index l i
  = inr (nth (Z.to_nat (i mod Z.of_nat (List.length l))) l d).
Proof.
  intros H. unfold py_index. set (n := Z.of_nat (List.length l)) in *.
  assert (Em : i mod n = if i <? 0 then i + n else i).
  { destruct (Z.ltb_spec i 0).
    - rewrite <- (Z_mod_plus_full i 1 n). rewrite Z.mod_small; lia.
    - rewrite Z.mod_small; lia. }
  rewrite Em. set (j := if i <? 0 then i + n else i) in *.
  assert (Hj : 0 <= j < n). { subst j. destruct (Z.ltb_spec i 0); lia. }
  destruct (Z.leb_spec 0 j); [| lia]. destruct (Z.ltb_spec j n); [| lia].
  cbn [andb]. rewrite (nth_error_nth' l d); [reflexivity |]. subst n. lia.
Qed.

Lemma py_index_out_of_range {A : Type} (l : list A) i :
  ~ (- Z.of_nat (List.length l) <= i < Z.of_nat (List.length l)) ->
  py_index l i = inl IndexError.
Proof.
  intros H. unfold py_index. set (n := Z.of_nat (List.length l)) in *.
  destruct (Z.ltb_spec i 0).
  - destruct (Z.leb_spec 0 (i + n)); [| reflexivity].
    destruct (Z.ltb_spec (i + n) n); [lia | reflexivity].
  - destruct (Z.leb_spec 0 i); [| reflexivity].
    destruct (Z.ltb_spec i n); [lia | reflexivity].
Qed.

(** X3.  What [calculate_bbox] does on every input: with [n] labels, an
    index [bbox_id - 1] outside [-n .. n-1] raises [IndexError], whatever
    the row is; an index in range with a row that has not five values
    raises [ValueError]; otherwise a record is returned with the given
    ids, whose category id is one more than the class value at the index,
    a negative index counting from the end. *)
Theorem calculate_bbox_outcome bbox_id img_id r_labels r_xywhr :
  let n := Z.of_nat (List.length r_labels) in
  let i := bbox_id - 1 in
  (~ (- n <= i < n) ->
   calculate_bbox bbox_id img_id r_labels r_xywhr = inl IndexError)
  /\ (- n <= i < n -> List.length r_xywhr <> 5%nat ->
      exists msg,
        calculate_bbox bbox_id img_id r_labels r_xywhr = inl (ValueError msg))
  /\ (- n <= i < n -> List.length r_xywhr = 5%nat ->
      exists data,
        calculate_bbox bbox_id img_id r_labels r_xywhr = inr data
        /\ int_field "id" data = Some bbox_id
        /\ int_field "image_id" data = Some img_id
        /\ int_field "category_id" data
           = Some (nth (Z.to_nat (i mod n)) r_labels 0 + 1)).
Proof.
  cbn zeta. split; [| split].
  - intros H. unfold calculate_bbox.
    rewrite (py_index_out_of_range r_labels _ H). reflexivity.
  - intros H L. unfold calculate_bbox.
    rewrite (py_index_in_range r_labels _ 0 H).
    destruct r_xywhr as [| x [| y [| wd [| ht [| r [| ? ?]]]]]];
      try (eexists; reflexivity).
    exfalso. apply L. reflexivity.
  - intros H L. unfold calculate_bbox.
    rewrite (py_index_in_range r_labels _ 0 H).
    destruct r_xywhr as [| x [| y [| wd [| ht [| r [| ? ?]]]]]];
      try discriminate L.
    eexists. split; [reflexivity |]. repeat split.
Qed.

Example bbox_id_zero_takes_last_label :
  exists data,
    calculate_bbox 0 1 [4; 7] [1; 2; 3; 4; 0]%float = inr data
    /\ int_field "category_id" data = Some 8.
Proof. eexists. split; reflexivity. Qed.

Lemma boxes_loop_too_few k i r_cls rows anns :
  (k <= List.length r_cls)%nat ->
  (List.length r_cls < k + List.length rows)%nat ->
  Forall (fun row => List.length row = 5%nat)
    (firstn (List.length r_cls - k) rows) ->
  boxes_loop (Z.of_nat k + 1) i r_cls rows anns = inl IndexError.
Proof.
  revert k anns. induction rows as [| row rows IH]; intros k anns Lk Lr F.
  - cbn [List.length] in Lr. lia.
  - cbn [boxes_loop List.length] in *.
    destruct (Nat.eq_dec k (List.length r_cls)) as [E | NE].
    + unfold calculate_bbox. rewrite py_index_out_of_range; [reflexivity |].
      lia.
    + replace (List.length r_cls - k)%nat
        with (S (List.length r_cls - S k)) in F by lia.
      cbn [firstn] in F. inversion F as [| ? ? H5 F']. subst.
      destruct (nth_error r_cls k) as [cl |] eqn:Ec.
      2:{ apply nth_error_None in Ec. lia. }
      destruct row as [| x [| y [| wd [| ht [| r [| ? ?]]]]]];
        try discriminate H5.
      destruct (calculate_bbox_returns (Z.of_nat k + 1) i r_cls cl x y wd ht r)
        as [a Ea].
      { replace (Z.of_nat k + 1 - 1) with (Z.of_nat k) by lia.
        apply py_index_nat. exact Ec. }
      rewrite Ea.
      replace (Z.of_nat k + 1 + 1) with (Z.of_nat (S k) + 1) by lia.
      apply IH; [lia | lia | exact F'].
Qed.

(** X4.  A result with fewer class values than boxes makes the inner
    loop raise [IndexError] at the first box without a class value,
    provided the rows before it have their five values: the loop does
    not stop at the end of the class sequence. *)
Theorem too_few_classes_raise i r_cls rows anns :
  (List.length r_cls < List.length rows)%nat ->
  Forall (fun row => List.length row = 5%nat)
    (firstn (List.length r_cls) rows) ->
  boxes_loop 1 i r_cls rows anns = inl IndexError.
Proof.
  intros L F. apply (boxes_loop_too_few 0 i r_cls rows anns).
  - lia.
  - lia.
  - rewrite Nat.sub_0_r. exact F.
Qed.

Lemma too_few_classes_raise_witness :
  boxes_loop 1 1 (Result.cls (Result.obb Cases.short_cls))
    (Result.xywhr (Result.obb Cases.short_cls)) []
  = inl IndexError.
Proof.
  apply (too_few_classes_raise 1 (Result.cls (Result.obb Cases.short_cls))
           (Result.xywhr (Result.obb Cases.short_cls)) []).
  - simpl. lia.
  - repeat constructor.
Defined.

(* ================================================================== *)
(** ** Further properties: complete and broken runs *)
(* ================================================================== *)

Lemma annotations_from_total i results anns :
  Forall well_formed results ->
  exists anns', annotations_from i results anns = inr anns'.
Proof.
  intros F. revert i anns. induction F as [| r rest [L F5] _ IH]; intros i anns.
  - exists anns. reflexivity.
  - cbn [annotations_from].
    destruct (boxes_loop_total 0 i (Result.cls (Result.obb r))
                (Result.xywhr (Result.obb r)) anns) as [anns1 E];
      [lia | exact F5 |].
    change (Z.of_nat 0 + 1) with 1 in E. rewrite E. apply IH.
Qed.

(** With a valid configuration in a world where no effect fails, [main]
    gets to the loop over results having performed the setup events. *)
Lemma main_after_setup w c labels entries tr0 :
  reliable w ->
  os_path_exists w (Constants.model_path c) = true ->
  os_path_exists w (Constants.images_path c) = true ->
  match Constants.save_annotations_path c with
  | Some p => os_path_exists w p = true
  | None => True
  end ->
  Constants.labels c = LabelsList labels ->
  os_listdir w (Constants.images_path c) = inr entries ->
  main w c tr0
  = (lists <- results_loop w (Constants.save_image c)
               (Constants.save_annotation c)
               save_image_path save_txt_file_path 1 (results_of w c) [] [] ;;
     match snd (predict_stream w (Constants.model_path c)
                  (images_paths_of w c)) with
     | Some e => raise e
     | None =>
         emit (LogDebug "Saving results") ;;
         perform w (OpenWrite json_file_path) ;;
         perform w (JsonDump json_file_path
                      (document labels (fst lists) (snd lists))) ;;
         emit (LogDebug "Done")
     end) (tr0 ++ setup_events w c).
Proof.
  intros Hw Em Ei Es El Ed.
  assert (Ep : sorted (selected w (Constants.images_path c) entries)
               = images_paths_of w c).
  { unfold images_paths_of. rewrite Ed. reflexivity. }
  unfold main. unfold path_exists at 1 2. unfold bind at 1, ret at 1.
  rewrite Em. cbn [negb]. unfold bind at 1, ret at 1. rewrite Ei. cbn [negb].
  unfold bind at 1.
  assert (Em' : (match Constants.save_annotations_path c with
                 | Some p => ex <- path_exists w p ;; ret (negb ex)
                 | None => ret false
                 end) tr0 = (tr0, inr false)).
  { destruct (Constants.save_annotations_path c).
    - unfold bind, path_exists, ret. rewrite Es. reflexivity.
    - reflexivity. }
  rewrite Em'. rewrite El.
  unfold bind at 1. rewrite (ensure_dir_run w _ _ _ Hw).
  unfold bind at 1. rewrite (ensure_dir_run w _ _ _ Hw).
  unfold bind at 1, emit at 1.
  unfold bind at 1. rewrite (perform_run w _ _ Hw).
  unfold bind at 1, emit at 1.
  unfold bind at 1, listdir, lift. rewrite Ed.
  unfold bind at 1. rewrite load_images_run. cbn [app]. rewrite Ep.
  unfold bind at 1, emit at 1.
  unfold bind at 1, emit at 1.
  unfold bind at 1. rewrite (perform_run w _ _ Hw).
  fold save_image_path save_txt_file_path (results_of w c) json_file_path.
  unfold setup_events. repeat rewrite <- app_assoc. reflexivity.
Qed.

(** X5.  With a valid configuration, results that all convert and no
    failing effect, a stream that ends with an exception makes [main]
    raise that exception after the images and label files of all yielded
    results have been saved: the saved files stay, and the JSON file is
    neither opened nor written. *)
Theorem broken_stream_keeps_saved_files w c labels entries e :
  reliable w ->
  os_path_exists w (Constants.model_path c) = true ->
  os_path_exists w (Constants.images_path c) = true ->
  match Constants.save_annotations_path c with
  | Some p => os_path_exists w p = true
  | None => True
  end ->
  Constants.labels c = LabelsList labels ->
  os_listdir w (Constants.images_path c) = inr entries ->
  Forall well_formed (results_of w c) ->
  snd (predict_stream w (Constants.model_path c) (images_paths_of w c))
  = Some e ->
  main w c []
  = (setup_events w c ++ save_events c (results_of w c), inl e).
Proof.
  intros Hw Em Ei Es El Ed Hf Hs.
  rewrite (main_after_setup w c labels entries [] Hw Em Ei Es El Ed).
  destruct (annotations_from_total 1 _ [] Hf) as [anns Ha].
  unfold bind. rewrite (results_loop_run w c _ _ _ _ anns _ Hw Ha).
  rewrite Hs. unfold raise. cbn [app]. reflexivity.
Qed.

Lemma broken_stream_keeps_saved_files_witness :
  main Cases.broken_world Sample.constants []
  = (setup_events Cases.broken_world Sample.constants
     ++ save_events Sample.constants
          (results_of Cases.broken_world Sample.constants),
     inl (ExternalError "out of memory")).
Proof.
  apply (broken_stream_keeps_saved_files Cases.broken_world Sample.constants
           [JStr "car"; JStr "boat"] ["b.PNG"; "a.jpg"]
           (ExternalError "out of memory")); try reflexivity.
  - intros tr ev. reflexivity.
  - repeat constructor.
Defined.

Example broken_run_outputs :
  filter is_output Cases.broken_run
  = [SaveImage Sample.result_a "./predictions/images/a.jpg";
     SaveTxt Sample.result_a "./predictions/annotations/a.txt"].
Proof. reflexivity. Qed.

(** X6.  With a valid configuration, a stream that ends normally,
    results that each have at least as many class values as boxes and
    five values per row, and no failing effect, [main] completes: it
    dumps one document, with one annotation per box. *)
Theorem main_completes_on_well_formed_results w c labels entries :
  reliable w ->
  os_path_exists w (Constants.model_path c) = true ->
  os_path_exists w (Constants.images_path c) = true ->
  match Constants.save_annotations_path c with
  | Some p => os_path_exists w p = true
  | None => True
  end ->
  Constants.labels c = LabelsList labels ->
  os_listdir w (Constants.images_path c) = inr entries ->
  snd (predict_stream w (Constants.model_path c) (images_paths_of w c)) = None ->
  Forall well_formed (results_of w c) ->
  exists anns,
    main w c [] = (complete_trace w c labels anns, inr tt)
    /\ dumps (complete_trace w c labels anns)
       = [("./instances.json",
           document labels (image_records 1 (results_of w c)) anns)]
    /\ List.length anns = box_count (results_of w c).
Proof.
  intros Hw Em Ei Es El Ed Hs Hf.
  destruct (annotations_from_total 1 _ [] Hf) as [anns Ha].
  exists anns. split; [| split].
  - exact (main_completes w c labels entries anns [] Hw Em Ei Es El Ed Hs Ha).
  - apply dumps_complete.
  - apply (annotations_length 1). exact Ha.
Qed.

Lemma main_completes_on_well_formed_results_witness :
  exists anns,
    main Sample.world Sample.constants []
    = (complete_trace Sample.world Sample.constants
         [JStr "car"; JStr "boat"] anns, inr tt)
    /\ dumps (complete_trace Sample.world Sample.constants
                [JStr "car"; JStr "boat"] anns)
       = [("./instances.json",
           document [JStr "car"; JStr "boat"]
             (image_records 1 (results_of Sample.world Sample.constants)) anns)]
    /\ List.length anns = box_count (results_of Sample.world Sample.constants).
Proof.
  apply (main_completes_on_well_formed_results Sample.world Sample.constants
           [JStr "car"; JStr "boat"]
           ["b.PNG"; "sub.jpg"; "notes.txt"; "a.jpg"; "c.jpeg.bak"]);
    try reflexivity.
  - intros tr ev. reflexivity.
  - repeat constructor.
Defined.

Lemma perform_fails w e tr tr' x :
  perform w e tr = (tr', inl x) -> tr' = tr /\ io_error w tr e = Some x.
Proof.
  unfold perform. destruct (io_error w tr e) as [y |]; intros H.
  - inversion H. split; reflexivity.
  - discriminate.
Qed.

Lemma bind_cases {A B : Type} (c : M A) (k : A -> M B) tr tr' r :
  bind c k tr = (tr', r) ->
  (exists e, c tr = (tr', inl e) /\ r = inl e)
  \/ (exists a tr1, c tr = (tr1, inr a) /\ k a tr1 = (tr', r)).
Proof.
  unfold bind. destruct (c tr) as [tr1 [e | a]]; intros H.
  - left. inversion H. exists e. split; reflexivity.
  - right. exists a, tr1. split; [reflexivity | exact H].
Qed.

Lemma bind_quiet {A B : Type} (c : M A) (k : A -> M B) tr tr' (e : exn) :
  appends_only quiet c -> Forall quiet tr ->
  bind c k tr = (tr', inl e) ->
  Forall quiet tr'
  \/ (exists a tr1, Forall quiet tr1 /\ k a tr1 = (tr', inl e)).
Proof.
  intros Hc Hq H. apply bind_cases in H.
  destruct H as [[e' [Hf _]] | [a [tr1 [Hs H]]]].
  - left. destruct (Hc _ _ _ Hf) as [ext [-> F]]. apply Forall_app.
    split; assumption.
  - right. exists a, tr1. split; [| exact H].
    destruct (Hc _ _ _ Hs) as [ext [-> F]]. apply Forall_app.
    split; assumption.
Qed.

Tactic Notation "quiet_bind" hyp(H) "by" tactic3(t) :=
  apply bind_quiet in H;
  [ destruct H as [H | [? [? [? H]]]]; [left; exact H |]
  | t
  | assumption ].

Ltac quiet_raise H :=
  quiet_bind H by (apply appends_only_emit; exact I);
  unfold raise in H; inversion H; subst; left; assumption.

Ltac split_if H :=
  match type of H with
  | (if ?b then _ else _) _ = _ => destruct b
  end.

(** A run that raises, started after quiet events, has either performed
    quiet events only, or opened the JSON file and failed to dump. *)
Lemma main_raises w c tr0 tr e :
  Forall quiet tr0 ->
  main w c tr0 = (tr, inl e) ->
  Forall quiet tr
  \/ (exists pre doc,
        tr = pre ++ [OpenWrite json_file_path]
        /\ Forall quiet pre
        /\ io_error w tr (JsonDump json_file_path doc) = Some e).
Proof.
  intros F0 H. unfold main in H.
  quiet_bind H by (apply appends_only_ret).
  split_if H; [quiet_raise H |].
  quiet_bind H by (apply appends_only_ret).
  split_if H; [quiet_raise H |].
  quiet_bind H by
    (destruct (Constants.save_annotations_path c);
     [apply appends_only_bind; [apply appends_only_ret | intros ?];
      apply appends_only_ret
     | apply appends_only_ret]).
  split_if H; [quiet_raise H |].
  destruct (Constants.labels c) as [labels | repr]; [| quiet_raise H].
  quiet_bind H by (apply ensure_dir_appends; intros _; exact I).
  quiet_bind H by (apply ensure_dir_appends; intros _; exact I).
  quiet_bind H by (apply appends_only_emit; exact I).
  quiet_bind H by (apply appends_only_perform; exact I).
  quiet_bind H by (apply appends_only_emit; exact I).
  quiet_bind H by (apply appends_only_lift).
  quiet_bind H by (apply load_images_appends).
  quiet_bind H by (apply appends_only_emit; exact I).
  quiet_bind H by (apply appends_only_emit; exact I).
  quiet_bind H by (apply appends_only_perform; exact I).
  quiet_bind H by
    (apply (results_loop_appends quiet w c); intros ? _; exact I).
  match type of H with
  | match ?s with _ => _ end _ = _ => destruct s
  end.
  { unfold raise in H. inversion H. subst. left. assumption. }
  quiet_bind H by (apply appends_only_emit; exact I).
  apply bind_cases in H. destruct H as [[e' [Hf He]] | [u [t [Ho H]]]].
  { apply perform_fails in Hf. destruct Hf as [-> _]. left. assumption. }
  apply perform_ok in Ho. subst t.
  apply bind_cases in H. destruct H as [[e' [Hf He]] | [u' [t [Hd H]]]].
  - apply perform_fails in Hf. destruct Hf as [-> Hio]. injection He as <-.
    right. eexists. eexists. split; [reflexivity |].
    split; [assumption | exact Hio].
  - unfold emit in H. discriminate H.
Qed.

(** X7.  A run that raises has dumped no document.  It has not even
    opened the JSON file, except when the exception is the failure of
    the dump itself: every conversion is finished before the file is
    opened, so an error during prediction or conversion leaves an
    earlier [instances.json] untouched. *)
Theorem failed_run_dumps_nothing w c tr e :
  main w c [] = (tr, inl e) ->
  dumps tr = []
  /\ (Forall quiet tr
      \/ exists pre doc,
           tr = pre ++ [OpenWrite "./instances.json"]
           /\ Forall quiet pre
           /\ io_error w tr (JsonDump "./instances.json" doc) = Some e).
Proof.
  intros H. apply main_raises in H; [| constructor].
  assert (Q : forall l, Forall quiet l -> dumps l = []).
  { intros l F. apply dumps_none. apply Forall_impl with (P := quiet);
      [| exact F]. intros ev. destruct ev; simpl; auto. }
  split; [| exact H].
  destruct H as [F | [pre [doc [-> [F _]]]]].
  - apply Q. exact F.
  - rewrite dumps_app, (Q _ F). reflexivity.
Qed.

Lemma failed_run_dumps_nothing_witness :
  dumps Cases.broken_run = []
  /\ (Forall quiet Cases.broken_run
      \/ exists pre doc,
           Cases.broken_run = pre ++ [OpenWrite "./instances.json"]
           /\ Forall quiet pre
           /\ io_error Cases.broken_world Cases.broken_run
                (JsonDump "./instances.json" doc)
              = Some (ExternalError "out of memory")).
Proof.
  apply (failed_run_dumps_nothing Cases.broken_world Sample.constants
           Cases.broken_run (ExternalError "out of memory")).
  vm_compute. reflexivity.
Defined.

(* ================================================================== *)
(** ** Further properties: directories *)
(* ================================================================== *)





Example fresh_run_directories :
  filter (fun e => match e with MakeDirs _ => true | _ => false end)
    Cases.fresh_run
  = [MakeDirs "./predictions/images"; MakeDirs "./predictions/annotations"]
  /\ filter (fun e => match e with MakeDirs _ => true | _ => false end)
       Sample.run
     = [].
Proof. split; reflexivity. Qed.

(* ================================================================== *)
(** ** Further properties: file names *)
(* ================================================================== *)

Lemma rfind_from_absent ch s i last :
  ~ In ch (PyStr.chars s) -> PyStr.rfind_from ch s i last = last.
Proof.
  revert i last. induction s as [| d s IH]; intros i last H; [reflexivity |].
  cbn [PyStr.rfind_from]. cbn [PyStr.chars] in H.
  destruct (Ascii.eqb_spec d ch) as [E | _].
  - exfalso. apply H. left. exact E.
  - apply IH. intros Hin. apply H. right. exact Hin.
Qed.

Lemma rfind_from_last ch a n i last :
  ~ In ch (PyStr.chars n) ->
  PyStr.rfind_from ch (a ++ String ch n)%string i last
  = i + Z.of_nat (String.length a).
Proof.
  intros H. revert i last. induction a as [| d a IH]; intros i last.
  - cbn [String.append PyStr.rfind_from String.length].
    rewrite Ascii.eqb_refl. rewrite rfind_from_absent by exact H.
    change (Z.of_nat 0) with 0. lia.
  - cbn [String.append PyStr.rfind_from String.length]. rewrite IH. lia.
Qed.

Lemma drop_app a b : PyStr.drop (String.length a) (a ++ b)%string = b.
Proof. induction a as [| d a IH]; [destruct b |]; simpl; auto. Qed.

Lemma take_app a b : PyStr.take (String.length a) (a ++ b)%string = a.
Proof.
  induction a as [| d a IH]; [destruct b; reflexivity |].
  simpl. rewrite IH. reflexivity.
Qed.

Lemma string_app_assoc a b c : ((a ++ b) ++ c = a ++ (b ++ c))%string.
Proof.
  induction a as [| d a IH]; simpl; [reflexivity | rewrite IH; reflexivity].
Qed.

Lemma basename_after_sep a n :
  no_sep n -> PosixPath.basename (a ++ String PosixPath.sep n)%string = n.
Proof.
  intros H. unfold PosixPath.basename, PyStr.rfind.
  rewrite rfind_from_last by exact H.
  replace (Z.to_nat (0 + Z.of_nat (String.length a) + 1))
    with (String.length (a ++ "/")%string).
  - rewrite <- (drop_app (a ++ "/") n) at 2. rewrite string_app_assoc.
    reflexivity.
  - induction a as [| d a IH]; [reflexivity |].
    cbn [String.append String.length]. rewrite IH. lia.
Qed.

Lemma basename_of_name n : no_sep n -> PosixPath.basename n = n.
Proof.
  intros H. unfold PosixPath.basename, PyStr.rfind.
  rewrite rfind_from_absent by exact H. reflexivity.
Qed.

Lemma endswith_spec s suf :
  PyStr.endswith s suf = true -> exists pre, s = (pre ++ suf)%string.
Proof.
  induction s as [| d s IH]; cbn [PyStr.endswith].
  - destruct (String.eqb_spec "" suf) as [<- | _]; [| discriminate].
    intros _. exists "". reflexivity.
  - destruct (String.eqb_spec (String d s) suf) as [<- | _].
    + intros _. exists "". reflexivity.
    + intros H. destruct (IH H) as [pre ->]. exists (String d pre).
      reflexivity.
Qed.

Lemma basename_join dir image :
  no_sep image -> PosixPath.basename (PosixPath.join dir [image]) = image.
Proof.
  intros H. cbn [PosixPath.join fold_left]. unfold PosixPath.join1.
  destruct (PyStr.startswith image "/") eqn:Es.
  { apply startswith_sep in Es. destruct Es as [b ->]. exfalso. apply H.
    left. reflexivity. }
  destruct (String.eqb_spec dir "") as [-> | _]; cbn [orb].
  { apply basename_of_name. exact H. }
  destruct (PyStr.endswith dir "/") eqn:Ee.
  - apply endswith_spec in Ee. destruct Ee as [pre ->].
    rewrite string_app_assoc. apply basename_after_sep. exact H.
  - apply basename_after_sep. exact H.
Qed.

(** X9.  The image record of a result whose path is a directory entry
    joined to the images directory has that entry's name as file name,
    whatever the directory is (empty, relative, absolute, with or
    without a trailing separator). *)
Theorem file_name_is_entry_name i r dir image :
  no_sep image ->
  Result.path r = PosixPath.join dir [image] ->
  field "file_name" (new_image i r) = Some (JStr image).
Proof.
  intros H E. unfold new_image. rewrite E, basename_join by exact H.
  reflexivity.
Qed.

Lemma file_name_is_entry_name_witness :
  field "file_name" (new_image 2 Sample.result_b) = Some (JStr "b.PNG").
Proof.
  apply (file_name_is_entry_name 2 Sample.result_b "imgs" "b.PNG").
  - intros H. simpl in H. repeat (destruct H as [H | H]; [discriminate H |]).
    exact H.
  - reflexivity.
Defined.

Lemma splitext_root_of_stem stem ext :
  no_sep stem -> no_sep ext -> no_dot ext ->
  (exists ch, In ch (PyStr.chars stem) /\ ch <> PosixPath.extsep) ->
  fst (PosixPath.splitext (stem ++ "." ++ ext)%string) = stem.
Proof.
  intros Hs He Hd [ch [Hin Hne]].
  unfold PosixPath.splitext, PyStr.rfind.
  change (stem ++ "." ++ ext)%string
    with (stem ++ String PosixPath.extsep ext)%string.
  rewrite (rfind_from_last PosixPath.extsep) by exact Hd.
  rewrite rfind_from_absent.
  2:{ rewrite chars_app. intros Hx. apply in_app_or in Hx.
      destruct Hx as [Hx | [Hx | Hx]].
      - exact (Hs Hx).
      - discriminate Hx.
      - exact (He Hx). }
  replace (Z.to_nat (0 + Z.of_nat (String.length stem) - (-1 + 1)))
    with (String.length stem) by lia.
  replace (Z.to_nat (0 + Z.of_nat (String.length stem)))
    with (String.length stem) by lia.
  change (Z.to_nat (-1 + 1)) with 0%nat. cbn [PyStr.drop].
  rewrite take_app.
  assert (Hlt : (-1 <? 0 + Z.of_nat (String.length stem)) = true).
  { apply Z.ltb_lt. lia. }
  rewrite Hlt. cbn [andb].
  assert (Hex : existsb (fun c => negb (Ascii.eqb c PosixPath.extsep))
                  (PyStr.chars stem) = true).
  { apply existsb_exists. exists ch. split; [exact Hin |].
    destruct (Ascii.eqb_spec ch PosixPath.extsep); [contradiction | reflexivity]. }
  rewrite Hex. reflexivity.
Qed.

(** X10.  For an image whose base name is a stem, a dot and an
    extension (the extension without dot or separator, the stem without
    separator and not made of dots only), the label file is
    [./predictions/annotations/<stem>.txt]: the extension is replaced.
    Two images that differ only in the extension therefore share one
    label file. *)
Theorem label_file_replaces_extension r stem ext :
  PosixPath.basename (Result.path r) = (stem ++ "." ++ ext)%string ->
  no_sep stem -> no_sep ext -> no_dot ext ->
  (exists ch, In ch (PyStr.chars stem) /\ ch <> PosixPath.extsep) ->
  label_file r = ("./predictions/annotations/" ++ stem ++ ".txt")%string
  /\ (forall r' ext',
        PosixPath.basename (Result.path r') = (stem ++ "." ++ ext')%string ->
        no_sep ext' -> no_dot ext' ->
        label_file r' = label_file r).
Proof.
  intros E Hs He Hd Hx.
  assert (L : forall r0 ext0,
            PosixPath.basename (Result.path r0) = (stem ++ "." ++ ext0)%string ->
            no_sep ext0 -> no_dot ext0 ->
            label_file r0
            = ("./predictions/annotations/" ++ stem ++ ".txt")%string).
  { intros r0 ext0 E0 He0 Hd0. rewrite label_file_path, E0.
    rewrite splitext_root_of_stem by assumption. reflexivity. }
  split.
  - apply (L r ext); assumption.
  - intros r' ext' E' He' Hd'. rewrite (L r' ext') by assumption.
    symmetry. apply (L r ext); assumption.
Qed.

Ltac absent :=
  let H := fresh "H" in
  intros H; simpl in H;
  repeat (destruct H as [H | H]; [discriminate H |]); exact H.

Lemma label_file_replaces_extension_witness :
  label_file Sample.result_a = "./predictions/annotations/a.txt"
  /\ (forall r' ext',
        PosixPath.basename (Result.path r') = ("a" ++ "." ++ ext')%string ->
        no_sep ext' -> no_dot ext' ->
        label_file r' = label_file Sample.result_a).
Proof.
  apply (label_file_replaces_extension Sample.result_a "a" "jpg").
  - reflexivity.
  - absent.
  - absent.
  - absent.
  - exists "a"%char. split; [left; reflexivity | discriminate].
Defined.

Example same_stem_same_label_file :
  label_file (Result.mk "imgs/a.jpg" (1, 1) (Result.mk_obb [] []))
  = label_file (Result.mk "imgs/a.png" (1, 1) (Result.mk_obb [] [])).
Proof. reflexivity. Qed.

(* ================================================================== *)
(** ** Further properties: the order of the directory listing *)
(* ================================================================== *)

Lemma filter_perm {A : Type} (f : A -> bool) l l' :
  Permutation l l' -> Permutation (filter f l) (filter f l').
Proof.
  induction 1 as [| x l l' _ IH | x y l | l l' l'' _ IH1 _ IH2]; simpl.
  - apply perm_nil.
  - destruct (f x); [apply perm_skip |]; exact IH.
  - destruct (f x), (f y); try apply Permutation_refl. apply perm_swap.
  - apply perm_trans with (filter f l'); assumption.
Qed.

Lemma path_le_antisym a b : path_le a b -> path_le b a -> a = b.
Proof. apply String.leb_antisym. Qed.

Lemma strongly_sorted_unique l l' :
  StronglySorted path_le l -> StronglySorted path_le l' ->
  Permutation l l' -> l = l'.
Proof.
  intros S. revert l'. induction S as [| x l S IH Hx]; intros l' S' P.
  - apply Permutation_nil in P. subst. reflexivity.
  - destruct S' as [| y l' S' Hy].
    + apply Permutation_sym, Permutation_nil in P. discriminate.
    + assert (E : x = y).
      { rewrite Forall_forall in Hx, Hy.
        assert (Iy : In y (x :: l)).
        { apply (Permutation_in _ (Permutation_sym P)). left. reflexivity. }
        assert (Ix : In x (y :: l')).
        { apply (Permutation_in _ P). left. reflexivity. }
        destruct Iy as [Iy | Iy]; [exact Iy |].
        destruct Ix as [Ix | Ix]; [symmetry; exact Ix |].
        apply path_le_antisym; [apply Hx | apply Hy]; assumption. }
      subst y. f_equal. apply IH; [exact S' |].
      apply Permutation_cons_inv with x. exact P.
Qed.

(** X11.  The sources handed to the detector do not depend on the order
    in which the directory is listed: two listings with the same entries
    give the same sorted list of image paths, hence the same image ids. *)
Theorem sources_independent_of_listing_order w images_path entries entries' tr :
  Permutation entries entries' ->
  exists paths paths',
    load_images w images_path entries [] tr = (tr, inr paths)
    /\ load_images w images_path entries' [] tr = (tr, inr paths')
    /\ sorted paths = sorted paths'.
Proof.
  intros P. exists (selected w images_path entries),
    (selected w images_path entries').
  rewrite !load_images_run. cbn [app]. repeat split.
  apply strongly_sorted_unique; try apply sorted_strongly.
  apply perm_trans with (selected w images_path entries);
    [apply sorted_perm |].
  apply perm_trans with (selected w images_path entries');
    [| apply Permutation_sym, sorted_perm].
  unfold selected. apply Permutation_map, filter_perm. exact P.
Qed.

Lemma sources_independent_of_listing_order_witness :
  exists paths paths',
    load_images Sample.world "imgs"
      ["b.PNG"; "sub.jpg"; "notes.txt"; "a.jpg"; "c.jpeg.bak"] [] []
    = ([], inr paths)
    /\ load_images Sample.world "imgs" Cases.listed_backwards [] []
       = ([], inr paths')
    /\ sorted paths = sorted paths'.
Proof.
  apply (sources_independent_of_listing_order Sample.world "imgs"
           ["b.PNG"; "sub.jpg"; "notes.txt"; "a.jpg"; "c.jpeg.bak"]
           Cases.listed_backwards []).
  exact (Permutation_rev
           ["b.PNG"; "sub.jpg"; "notes.txt"; "a.jpg"; "c.jpeg.bak"]).
Defined.

(* ================================================================== *)
(** ** Further properties: the document as a whole *)
(* ================================================================== *)

Lemma enumerated_pairs_bound i results p :
  In p (enumerated_pairs i results) ->
  exists j, fst p = Some j /\ i <= j < i + Z.of_nat (List.length results).
Proof.
  revert i. induction results as [| r rest IH]; intros i H.
  - contradiction.
  - unfold enumerated_pairs in H. cbn [enumerate flat_map fst snd] in H.
    apply in_app_or in H. cbn [List.length]. destruct H as [H | H].
    + apply in_map_iff in H. destruct H as [k [<- _]]. exists i.
      split; [reflexivity | lia].
    + destruct (IH (i + 1) H) as [j [E L]]. exists j.
      split; [exact E | lia].
Qed.

(** X12.  In the document of a completed run every annotation refers to
    an image of the same document: its [image_id] is the id of one of
    the image records. *)
Theorem annotations_refer_to_images w c tr :
  main w c [] = (tr, inr tt) ->
  exists doc,
    dumps tr = [(json_file_path, doc)]
    /\ forall a, In a (items "annotations" doc) ->
         exists img j,
           In img (items "images" doc)
           /\ int_field "image_id" a = Some j
           /\ int_field "id" img = Some j.
Proof.
  intros H. destruct (main_document _ _ _ H) as [labels [anns [_ [Ha [_ Hd]]]]].
  exists (document labels (image_records 1 (results_of w c)) anns).
  split; [exact Hd |].
  rewrite document_annotations, document_images. intros a Hin.
  assert (Hp : In (int_field "image_id" a, int_field "id" a)
                 (enumerated_pairs 1 (results_of w c))).
  { rewrite <- (annotations_ids _ _ _ Ha). unfold id_pairs.
    apply in_map_iff. exists a. split; [reflexivity | exact Hin]. }
  destruct (enumerated_pairs_bound _ _ _ Hp) as [j [Ej Lj]].
  cbn [fst] in Ej.
  assert (Hj : In (Some j) (ids (image_records 1 (results_of w c)))).
  { rewrite image_records_ids. apply in_map. apply zseq_In. exact Lj. }
  unfold ids in Hj. apply in_map_iff in Hj. destruct Hj as [img [Ei Himg]].
  exists img, j. repeat split; assumption.
Qed.

Lemma annotations_refer_to_images_witness :
  exists doc,
    dumps Sample.run = [(json_file_path, doc)]
    /\ forall a, In a (items "annotations" doc) ->
         exists img j,
           In img (items "images" doc)
           /\ int_field "image_id" a = Some j
           /\ int_field "id" img = Some j.
Proof.
  apply (annotations_refer_to_images Sample.world Sample.constants Sample.run).
  vm_compute. reflexivity.
Defined.

(** X13.  The document does not depend on the save flags or on the
    configured output directory: two completed runs in the same world
    with the same model path, images path and labels dump the same
    document to the same place. *)
Theorem document_independent_of_flags w c c' tr tr' :
  Constants.model_path c = Constants.model_path c' ->
  Constants.images_path c = Constants.images_path c' ->
  Constants.labels c = Constants.labels c' ->
  main w c [] = (tr, inr tt) ->
  main w c' [] = (tr', inr tt) ->
  dumps tr = dumps tr'.
Proof.
  intros Em Ei El H H'.
  destruct (main_document _ _ _ H) as [labels [anns [L [Ha [_ Hd]]]]].
  destruct (main_document _ _ _ H') as [labels' [anns' [L' [Ha' [_ Hd']]]]].
  assert (Er : results_of w c = results_of w c').
  { unfold results_of, images_paths_of. rewrite Em, Ei. reflexivity. }
  rewrite Hd, Hd'. rewrite <- Er in *.
  assert (labels = labels') by congruence.
  assert (anns = anns') by congruence.
  subst. reflexivity.
Qed.

Lemma document_independent_of_flags_witness :
  dumps Sample.run = dumps Sample.quiet_run.
Proof.
  apply (document_independent_of_flags Sample.world Sample.constants
           Sample.quiet Sample.run Sample.quiet_run);
    try reflexivity; vm_compute; reflexivity.
Defined.

Lemma results_loop_breaks w c i pre r post imgs anns tr e :
  reliable w ->
  Forall well_formed pre ->
  (forall anns0,
     boxes_loop 1 (i + Z.of_nat (List.length pre)) (Result.cls (Result.obb r))
       (Result.xywhr (Result.obb r)) anns0 = inl e) ->
  results_loop w (Constants.save_image c) (Constants.save_annotation c)
    save_image_path save_txt_file_path i (pre ++ r :: post) imgs anns tr
  = (tr ++ save_events c (pre ++ [r]), inl e).
Proof.
  intros Hw F. revert i imgs anns tr.
  assert (E1 : forall r0 t, when (Constants.save_image c)
                 (perform w (SaveImage r0 (image_file r0))) t
               = (t ++ (if Constants.save_image c
                        then [SaveImage r0 (image_file r0)] else []), inr tt)).
  { intros r0 t. destruct (Constants.save_image c); simpl.
    - apply perform_run. exact Hw.
    - unfold ret. rewrite app_nil_r. reflexivity. }
  assert (E2 : forall r0 t, when (Constants.save_annotation c)
                 (perform w (SaveTxt r0 (label_file r0))) t
               = (t ++ (if Constants.save_annotation c
                        then [SaveTxt r0 (label_file r0)] else []), inr tt)).
  { intros r0 t. destruct (Constants.save_annotation c); simpl.
    - apply perform_run. exact Hw.
    - unfold ret. rewrite app_nil_r. reflexivity. }
  induction F as [| r0 pre [L F5] _ IH]; intros i imgs anns tr Hb.
  - cbn [app results_loop]. unfold bind at 1. fold (image_file r).
    rewrite E1. unfold bind at 1. fold (label_file r). rewrite E2.
    unfold bind at 1, lift. cbn [List.length] in Hb.
    replace (i + Z.of_nat 0) with i in Hb by lia. rewrite Hb.
    unfold save_events. cbn [flat_map]. rewrite app_nil_r, <- app_assoc.
    reflexivity.
  - cbn [app results_loop]. unfold bind at 1. fold (image_file r0).
    rewrite E1. unfold bind at 1. fold (label_file r0). rewrite E2.
    unfold bind at 1, lift.
    destruct (boxes_loop_total 0 i (Result.cls (Result.obb r0))
                (Result.xywhr (Result.obb r0)) anns) as [anns1 Ea];
      [lia | exact F5 |].
    change (Z.of_nat 0 + 1) with 1 in Ea. rewrite Ea.
    rewrite IH.
    + unfold save_events. cbn [app flat_map]. rewrite <- !app_assoc.
      reflexivity.
    + intros anns0. cbn [List.length] in Hb.
      replace (i + 1 + Z.of_nat (List.length pre))
        with (i + Z.of_nat (S (List.length pre))) by lia.
      apply Hb.
Qed.

(** X14.  With a valid configuration and no failing effect, a result
    with fewer class values than boxes, after results that convert,
    makes [main] raise [IndexError].  By then the images and label files
    of the results up to and including that one have been saved; the
    JSON file is neither opened nor written, and later results are not
    processed. *)
Theorem short_class_sequence_aborts_run w c labels entries pre r post :
  reliable w ->
  os_path_exists w (Constants.model_path c) = true ->
  os_path_exists w (Constants.images_path c) = true ->
  match Constants.save_annotations_path c with
  | Some p => os_path_exists w p = true
  | None => True
  end ->
  Constants.labels c = LabelsList labels ->
  os_listdir w (Constants.images_path c) = inr entries ->
  results_of w c = pre ++ r :: post ->
  Forall well_formed pre ->
  (List.length (Result.cls (Result.obb r))
   < List.length (Result.xywhr (Result.obb r)))%nat ->
  Forall (fun row => List.length row = 5%nat)
    (firstn (List.length (Result.cls (Result.obb r)))
       (Result.xywhr (Result.obb r))) ->
  main w c []
  = (setup_events w c ++ save_events c (pre ++ [r]), inl IndexError).
Proof.
  intros Hw Em Ei Es El Ed Er Hp Hl H5.
  rewrite (main_after_setup w c labels entries [] Hw Em Ei Es El Ed).
  unfold bind. rewrite Er.
  rewrite (results_loop_breaks w c 1 pre r post [] [] _ IndexError Hw Hp).
  - reflexivity.
  - intros anns0. apply (boxes_loop_too_few 0).
    + lia.
    + lia.
    + rewrite Nat.sub_0_r. exact H5.
Qed.

Lemma short_class_sequence_aborts_run_witness :
  main Cases.short_world Sample.constants []
  = (setup_events Cases.short_world Sample.constants
     ++ save_events Sample.constants ([Sample.result_b] ++ [Cases.short_cls]),
     inl IndexError).
Proof.
  apply (short_class_sequence_aborts_run Cases.short_world Sample.constants
           [JStr "car"; JStr "boat"] ["b.PNG"; "a.jpg"]
           [Sample.result_b] Cases.short_cls [Sample.result_a]);
    try reflexivity.
  - intros tr ev. reflexivity.
  - repeat constructor.
  - simpl. lia.
  - repeat constructor.
Defined.

Example short_run_outputs :
  filter is_output Cases.short_run
  = [SaveImage Sample.result_b "./predictions/images/b.PNG";
     SaveTxt Sample.result_b "./predictions/annotations/b.txt";
     SaveImage Cases.short_cls "./predictions/images/a.jpg";
     SaveTxt Cases.short_cls "./predictions/annotations/a.txt"].
Proof. reflexivity. Qed.

Lemma string_app_inv_head a b c : (a ++ b = a ++ c)%string -> b = c.
Proof.
  induction a as [| d a IH]; simpl; intros H; [exact H |].
  injection H as H. apply IH. exact H.
Qed.

(** X15.  Two results that come from entries of one directory get the
    same annotated image file exactly when they come from the same
    entry: a saved image never overwrites that of another entry (label
    files can collide, see X10). *)
Theorem image_files_do_not_collide r r' dir image image' :
  no_sep image -> no_sep image' ->
  Result.path r = PosixPath.join dir [image] ->
  Result.path r' = PosixPath.join dir [image'] ->
  image_file r = image_file r' <-> image = image'.
Proof.
  intros H H' E E'. rewrite !image_file_path.
  rewrite E, E', !basename_join by assumption. split.
  - apply string_app_inv_head.
  - intros ->. reflexivity.
Qed.

Lemma image_files_do_not_collide_witness :
  image_file Sample.result_a = image_file Sample.result_b
  <-> "a.jpg" = "b.PNG".
Proof.
  apply (image_files_do_not_collide Sample.result_a Sample.result_b
           "imgs" "a.jpg" "b.PNG").
  - absent.
  - absent.
  - reflexivity.
  - reflexivity.
Defined.

(** X16.  When the stream yields no result, as for a directory without
    images, a run that completes still writes the document: the header
    and the categories, with empty lists of images and annotations, and
    no image or label file is saved. *)
Theorem empty_stream_writes_categories_only w c tr :
  main w c [] = (tr, inr tt) ->
  results_of w c = [] ->
  exists labels,
    Constants.labels c = LabelsList labels
    /\ dumps tr = [("./instances.json", document labels [] [])]
    /\ (forall r f, ~ In (SaveImage r f) tr)
    /\ (forall r f, ~ In (SaveTxt r f) tr).
Proof.
  intros H Er.
  destruct (main_document _ _ _ H) as [labels [anns [El [Ha [Ht Hd]]]]].
  rewrite Er in Ha, Hd. cbn [annotations_from image_records] in Ha, Hd.
  injection Ha as <-. exists labels. split; [exact El |].
  split; [exact Hd |].
  assert (Hn : forall e, In e tr -> is_output e = true ->
               exists p, e = MakeDirs p \/ e = OpenWrite p
                         \/ exists d, e = JsonDump p d).
  { intros e Hin Ho. subst tr. unfold complete_trace in Hin.
    rewrite Er in Hin. cbn [save_events flat_map app] in Hin.
    apply in_app_or in Hin. destruct Hin as [Hin | Hin].
    - unfold setup_events in Hin.
      repeat (apply in_app_or in Hin; destruct Hin as [Hin | Hin]);
        repeat match type of Hin with
               | In _ (if ?b then _ else _) => destruct b
               | In _ (_ :: _) => destruct Hin as [<- | Hin]
               | In _ [] => contradiction
               end; try discriminate Ho; eexists; left; reflexivity.
    - repeat (destruct Hin as [<- | Hin]; try discriminate Ho);
        try contradiction.
      + eexists. right. left. reflexivity.
      + eexists. right. right. eexists. reflexivity. }
  split; intros r f Hin;
    (destruct (Hn _ Hin eq_refl) as [p [E | [E | [d E]]]]; discriminate E).
Qed.

Lemma empty_stream_writes_categories_only_witness :
  exists labels,
    Constants.labels Sample.constants = LabelsList labels
    /\ dumps Cases.empty_run = [("./instances.json", document labels [] [])]
    /\ (forall r f, ~ In (SaveImage r f) Cases.empty_run)
    /\ (forall r f, ~ In (SaveTxt r f) Cases.empty_run).
Proof.
  apply (empty_stream_writes_categories_only Cases.empty_world
           Sample.constants Cases.empty_run).
  - vm_compute. reflexivity.
  - reflexivity.
Defined.

Example empty_run_sources :
  In (Predict []) Cases.empty_run.
Proof. vm_compute. do 5 right. left. reflexivity. Qed.
